(** * Shallow embedding of ramph: task documents, the scheduler, the
    extractor, the session driver and the execute-tasks loop. *)

From Stdlib Require Import String Ascii List ZArith Bool Lia.
Import ListNotations.
Open Scope string_scope.
Open Scope Z_scope.

(** ** Results

    [anyhow::Result<T>]: [Ok] or an error carrying its displayed message.
    Functions that can also panic (a failed slice index) use [outcome]. *)

Inductive result (A : Type) : Type :=
| Ok : A -> result A
| Err : string -> result A.
Arguments Ok {A} _.
Arguments Err {A} _.

Definition bind {A B} (m : result A) (k : A -> result B) : result B :=
  match m with Ok a => k a | Err e => Err e end.

(** [?] on a [Result]. *)
Notation "'let?' x := m 'in' k" := (bind m (fun x => k))
  (at level 200, x name, m at level 100, k at level 200).
Notation "'let?' ' p := m 'in' k" := (bind m (fun x => match x with p => k end))
  (at level 200, p pattern, m at level 100, k at level 200).

Definition is_ok {A} (r : result A) : bool :=
  match r with Ok _ => true | Err _ => false end.

(** ** src/types.rs *)
Module Types.

(** [struct Story]; [priority] is an [i32], kept as [Z]. *)
Record Story := mkStory {
  id : string;
  title : string;
  description : string;
  priority : Z;
  passes : bool;
  acceptance_criteria : list string
}.

(** [struct Prd]. *)
Record Prd := mkPrd {
  branch_name : string;
  stories : list Story
}.

(** [Iterator::min_by_key]: a [reduce] with [cmp::min_by], which keeps the
    accumulator unless the new element's key is strictly smaller. *)
Definition min_step {A : Type} (key : A -> Z) (acc y : A) : A :=
  match Z.compare (key acc) (key y) with Gt => y | _ => acc end.

Definition min_by_key {A : Type} (key : A -> Z) (l : list A) : option A :=
  match l with
  | [] => None
  | x :: xs => Some (fold_left (min_step key) xs x)
  end.

(** [Prd::get_next_story] (also [get_next_story] in main.rs). *)
Definition get_next_story (prd : Prd) : option Story :=
  min_by_key priority (filter (fun s => negb (passes s)) (stories prd)).

(** [HashSet<&String>] of the ids seen so far, as a list. *)
Definition hs_insert (seen : list string) (k : string) : bool * list string :=
  if existsb (String.eqb k) seen then (false, seen) else (true, k :: seen).

Definition is_empty (s : string) : bool :=
  match s with EmptyString => true | _ => false end.

(** The body of the [for (idx, story)] loop of [validate_prd]: each
    [anyhow::ensure!] in order (the index in the empty-ID message is left
    out). *)
Fixpoint validate_stories (seen : list string) (ss : list Story) : result unit :=
  match ss with
  | [] => Ok tt
  | story :: rest =>
      if is_empty (id story) then Err "Story has empty ID"
      else if is_empty (title story) then Err ("Story " ++ id story ++ " has empty title")
      else if is_empty (description story) then Err ("Story " ++ id story ++ " has empty description")
      else if negb (0 <? priority story) then Err ("Story " ++ id story ++ " has invalid priority")
      else if match acceptance_criteria story with [] => true | _ => false end
           then Err ("Story " ++ id story ++ " has no acceptance criteria")
      else let (fresh, seen') := hs_insert seen (id story) in
           if negb fresh then Err ("Duplicate story ID: " ++ id story)
           else validate_stories seen' rest
  end.

(** [validate_prd]. *)
Definition validate_prd (prd : Prd) : result unit :=
  if is_empty (branch_name prd) then Err "Branch name cannot be empty"
  else match stories prd with
       | [] => Err "PRD must contain at least one story"
       | ss => validate_stories [] ss
       end.

End Types.

(** ** src/prompts.rs: [clean_json_response]

    A Rust [&str] is modelled as the sequence of its characters; the model
    covers texts over U+0000..U+00FF, one [ascii] per character.  [find] and
    [rfind] return character positions: the slice they delimit is the same
    as with the byte offsets Rust uses, since both braces are one byte. *)
Module Prompts.

(** A call that may also panic (here: a slice index out of order). *)
Inductive outcome (A : Type) : Type :=
| Returns : result A -> outcome A
| Panics : outcome A.
Arguments Returns {A} _.
Arguments Panics {A}.

(** [char::is_whitespace] on U+0000..U+00FF: tab, LF, VT, FF, CR, space,
    NEL (U+0085) and NBSP (U+00A0). *)
Definition is_whitespace (c : ascii) : bool :=
  let n := nat_of_ascii c in
  ((9 <=? n) && (n <=? 13))%nat || (n =? 32)%nat || (n =? 133)%nat
  || (n =? 160)%nat.

Fixpoint trim_start (s : string) : string :=
  match s with
  | EmptyString => EmptyString
  | String c r => if is_whitespace c then trim_start r else s
  end.

Fixpoint trim_end (s : string) : string :=
  match s with
  | EmptyString => EmptyString
  | String c r =>
      let r' := trim_end r in
      match r' with
      | EmptyString => if is_whitespace c then EmptyString else String c EmptyString
      | _ => String c r'
      end
  end.

(** [str::trim]. *)
Definition trim (s : string) : string := trim_end (trim_start s).

Definition LF : ascii := ascii_of_nat 10.
Definition CR : ascii := ascii_of_nat 13.

(** [str::lines]: split after each LF; the LF, and a CR right before it,
    are dropped; a final line ending is optional.  [cur] holds the current
    line's characters in reverse. *)
Fixpoint lines_from (cur : list ascii) (s : string) : list string :=
  match s with
  | EmptyString =>
      match cur with
      | [] => []
      | _ => [string_of_list_ascii (rev cur)]
      end
  | String c r =>
      if Ascii.eqb c LF then
        let cur' := match cur with
                    | c' :: t => if Ascii.eqb c' CR then t else cur
                    | [] => []
                    end in
        string_of_list_ascii (rev cur') :: lines_from [] r
      else lines_from (c :: cur) r
  end.

Definition lines (s : string) : list string := lines_from [] s.

(** [str::find(c)]: position of the first occurrence. *)
Fixpoint find (c : ascii) (s : string) : option nat :=
  match s with
  | EmptyString => None
  | String d r =>
      if Ascii.eqb c d then Some 0%nat
      else option_map S (find c r)
  end.

(** [str::rfind(c)]: position of the last occurrence. *)
Fixpoint rfind (c : ascii) (s : string) : option nat :=
  match s with
  | EmptyString => None
  | String d r =>
      match rfind c r with
      | Some i => Some (S i)
      | None => if Ascii.eqb c d then Some 0%nat else None
      end
  end.

(** [&s[start..=end]]: becomes [start..end+1]; panics when
    [start > end + 1]. *)
Definition slice_inclusive (s : string) (start end_ : nat) : outcome string :=
  if (start <=? S end_)%nat then Returns (Ok (substring start (S end_ - start) s))
  else Panics.

Definition fence : string := "```".

(** The [without_fences] step. *)
Definition without_fences (trimmed : string) : string :=
  if String.prefix fence trimmed then
    let ls := lines trimmed in
    if (2 <? length ls)%nat then String.concat (String LF EmptyString) (removelast (tl ls))
    else trimmed
  else trimmed.

Definition OPEN : ascii := "{"%char.
Definition CLOSE : ascii := "}"%char.

(** [clean_json_response] (identical in prompts.rs and main.rs). *)
Definition clean_json_response (response : string) : outcome string :=
  let trimmed := trim response in
  let wf := without_fences trimmed in
  match find OPEN wf with
  | None => Returns (Err "No opening brace found in response")
  | Some start =>
      match rfind CLOSE wf with
      | None => Returns (Err "No closing brace found in response")
      | Some end_ => slice_inclusive wf start end_
      end
  end.

End Prompts.

(** ** The derived [Serialize]/[Deserialize] of [Prd] and [Story]

    serde_json turns text into a JSON value and back; the derived impls of
    types.rs decide how a value maps to a [Prd].  Numbers are modelled as
    integers (the only numbers the documents carry). *)
Module Serde.
Import Types.

Set Warnings "-register-all".
Inductive json : Type :=
| JNull : json
| JBool : bool -> json
| JNumber : Z -> json
| JString : string -> json
| JArray : list json -> json
| JObject : list (string * json) -> json.

(** [i32] range. *)
Definition i32_min : Z := - 2 ^ 31.
Definition i32_max : Z := 2 ^ 31 - 1.
Definition in_i32 (z : Z) : bool := (i32_min <=? z) && (z <=? i32_max).

(** Primitive [Deserialize] impls. *)
Definition de_string (v : json) : result string :=
  match v with JString s => Ok s | _ => Err "invalid type: expected a string" end.

Definition de_bool (v : json) : result bool :=
  match v with JBool b => Ok b | _ => Err "invalid type: expected a boolean" end.

Definition de_i32 (v : json) : result Z :=
  match v with
  | JNumber z => if in_i32 z then Ok z else Err "invalid value: expected i32"
  | _ => Err "invalid type: expected i32"
  end.

Fixpoint de_vec {A} (de : json -> result A) (l : list json) : result (list A) :=
  match l with
  | [] => Ok []
  | v :: r =>
      match de v with
      | Err e => Err e
      | Ok a => match de_vec de r with Err e => Err e | Ok xs => Ok (a :: xs) end
      end
  end.

Definition de_seq {A} (de : json -> result A) (v : json) : result (list A) :=
  match v with JArray l => de_vec de l | _ => Err "invalid type: expected a sequence" end.

(** A field slot of the derived [visit_map]: set at most once. *)
Definition set_slot {A} (name : string) (de : json -> result A) (slot : option A)
    (v : json) : result (option A) :=
  match slot with
  | Some _ => Err ("duplicate field `" ++ name ++ "`")
  | None => match de v with Ok a => Ok (Some a) | Err e => Err e end
  end.

Definition missing {A} (name : string) : result A :=
  Err ("missing field `" ++ name ++ "`").

(** The six slots of [Story]'s [visit_map]. *)
Record StorySlots := mkSlots {
  s_id : option string; s_title : option string; s_description : option string;
  s_priority : option Z; s_passes : option bool;
  s_criteria : option (list string)
}.

Definition empty_slots : StorySlots := mkSlots None None None None None None.

(** One map entry; a key naming no field is [__ignore] (its value is read
    as [IgnoredAny], which accepts any JSON). *)
Definition story_entry (sl : StorySlots) (k : string) (v : json) : result StorySlots :=
  let (i, t, d, p, pa, c) := sl in
  if String.eqb k "id" then
    match set_slot "id" de_string i v with Ok x => Ok (mkSlots x t d p pa c) | Err e => Err e end
  else if String.eqb k "title" then
    match set_slot "title" de_string t v with Ok x => Ok (mkSlots i x d p pa c) | Err e => Err e end
  else if String.eqb k "description" then
    match set_slot "description" de_string d v with Ok x => Ok (mkSlots i t x p pa c) | Err e => Err e end
  else if String.eqb k "priority" then
    match set_slot "priority" de_i32 p v with Ok x => Ok (mkSlots i t d x pa c) | Err e => Err e end
  else if String.eqb k "passes" then
    match set_slot "passes" de_bool pa v with Ok x => Ok (mkSlots i t d p x c) | Err e => Err e end
  else if String.eqb k "acceptance_criteria" then
    match set_slot "acceptance_criteria" (de_seq de_string) c v with
    | Ok x => Ok (mkSlots i t d p pa x) | Err e => Err e end
  else Ok sl.

Fixpoint story_entries (sl : StorySlots) (fs : list (string * json)) : result StorySlots :=
  match fs with
  | [] => Ok sl
  | (k, v) :: r => match story_entry sl k v with Ok sl' => story_entries sl' r | Err e => Err e end
  end.

(** End of [visit_map]: required fields in declaration order, then the
    [#[serde(default)]] ones. *)
Definition finish_story (sl : StorySlots) : result Story :=
  match s_id sl with None => missing "id" | Some i =>
  match s_title sl with None => missing "title" | Some t =>
  match s_description sl with None => missing "description" | Some d =>
  Ok (mkStory i t d
        (match s_priority sl with Some p => p | None => 0 end)
        (match s_passes sl with Some b => b | None => false end)
        (match s_criteria sl with Some c => c | None => [] end))
  end end end.

Definition story_of_fields (fs : list (string * json)) : result Story :=
  match story_entries empty_slots fs with Ok sl => finish_story sl | Err e => Err e end.

(** [visit_seq] of the derived impl: fields in order; a missing element is a
    length error for a required field and the default otherwise; trailing
    elements are rejected by serde_json. *)
Definition next_required {A} (n : string) (de : json -> result A) (l : list json)
    : result (A * list json) :=
  match l with
  | [] => Err ("invalid length " ++ n ++ ", expected struct Story with 6 elements")
  | v :: r => match de v with Ok a => Ok (a, r) | Err e => Err e end
  end.

Definition next_default {A} (dflt : A) (de : json -> result A) (l : list json)
    : result (A * list json) :=
  match l with
  | [] => Ok (dflt, [])
  | v :: r => match de v with Ok a => Ok (a, r) | Err e => Err e end
  end.

Definition story_of_seq (l : list json) : result Story :=
  let? '(i, l) := next_required "0" de_string l in
  let? '(t, l) := next_required "1" de_string l in
  let? '(d, l) := next_required "2" de_string l in
  let? '(p, l) := next_default 0 de_i32 l in
  let? '(pa, l) := next_default false de_bool l in
  let? '(c, l) := next_default [] (de_seq de_string) l in
  match l with
  | [] => Ok (mkStory i t d p pa c)
  | _ => Err "trailing elements"
  end.

(** [<Story as Deserialize>]: a map or a sequence. *)
Definition de_story (v : json) : result Story :=
  match v with
  | JObject fs => story_of_fields fs
  | JArray l => story_of_seq l
  | _ => Err "invalid type: expected struct Story"
  end.

(** [Prd]: field [branch_name] renamed to [branchName]. *)
Fixpoint prd_entries (b : option string) (ss : option (list Story))
    (fs : list (string * json)) : result (option string * option (list Story)) :=
  match fs with
  | [] => Ok (b, ss)
  | (k, v) :: r =>
      if String.eqb k "branchName" then
        match set_slot "branchName" de_string b v with
        | Ok b' => prd_entries b' ss r | Err e => Err e end
      else if String.eqb k "stories" then
        match set_slot "stories" (de_seq de_story) ss v with
        | Ok ss' => prd_entries b ss' r | Err e => Err e end
      else prd_entries b ss r
  end.

Definition prd_of_fields (fs : list (string * json)) : result Prd :=
  match prd_entries None None fs with
  | Err e => Err e
  | Ok (None, _) => missing "branchName"
  | Ok (_, None) => missing "stories"
  | Ok (Some b, Some ss) => Ok (mkPrd b ss)
  end.

Definition prd_of_seq (l : list json) : result Prd :=
  match l with
  | [vb; vs] =>
      match de_string vb with Err e => Err e | Ok b =>
      match de_seq de_story vs with Err e => Err e | Ok ss => Ok (mkPrd b ss) end end
  | [] | [_] => Err "invalid length, expected struct Prd with 2 elements"
  | _ => Err "trailing elements"
  end.

(** [<Prd as Deserialize>]. *)
Definition de_prd (v : json) : result Prd :=
  match v with
  | JObject fs => prd_of_fields fs
  | JArray l => prd_of_seq l
  | _ => Err "invalid type: expected struct Prd"
  end.

(** [<Story as Serialize>]: a map with the fields in declaration order. *)
Definition ser_story (s : Story) : json :=
  JObject [("id", JString (id s)); ("title", JString (title s));
           ("description", JString (description s));
           ("priority", JNumber (priority s)); ("passes", JBool (passes s));
           ("acceptance_criteria", JArray (map JString (acceptance_criteria s)))].

(** [<Prd as Serialize>]. *)
Definition ser_prd (p : Prd) : json :=
  JObject [("branchName", JString (branch_name p));
           ("stories", JArray (map ser_story (stories p)))].

End Serde.

(** ** src/amp.rs: [run_iteration], the session driver

    The agent's event stream is the list of the items it delivers before it
    ends; the [while let Some(result) = stream.next()] loop is [drive]. *)
Module Amp.

Inductive AssistantContent : Type :=
| Text (text : string)
| ToolUse (name : string).

Inductive StreamMessage : Type :=
| System (session_id : string)
| Assistant (content : list AssistantContent)
| Result (duration_ms : Z) (num_turns : Z) (is_error : bool) (error : option string)
| User (raw : string).

(** An item of the stream: [Ok(StreamMessage)] or a transport error. *)
Inductive StreamItem : Type :=
| Msg (m : StreamMessage)
| StreamErr (e : string).

Definition unwrap_or_default (o : option string) : string :=
  match o with Some s => s | None => EmptyString end.

(** The [for content in &msg.message.content] loop: text is appended,
    tool uses only move the spinner. *)
Fixpoint push_texts (out : string) (cs : list AssistantContent) : string :=
  match cs with
  | [] => out
  | Text t :: r => push_texts (out ++ t) r
  | ToolUse _ :: r => push_texts out r
  end.

(** The stream loop; [out] is [output_text]. *)
Fixpoint drive (out : string) (items : list StreamItem) : result string :=
  match items with
  | [] => Ok out
  | Msg (System _) :: r => drive out r
  | Msg (Assistant cs) :: r => drive (push_texts out cs) r
  | Msg (Result _ _ is_error err) :: r =>
      if is_error then Err ("Amp error: " ++ unwrap_or_default err)
      else drive out r
  | StreamErr _ :: r => drive out r
  | Msg (User _) :: r => drive out r
  end.

(** [run_iteration]: [cwd.canonicalize()?], then the stream the agent
    delivers for the prompt (same code in main.rs). *)
Definition run_iteration (canonical : result string) (items : list StreamItem)
    : result string :=
  let? _cwd := canonical in
  drive EmptyString items.

(** Texts of all [Text] contents of a stream, in order. *)
Fixpoint stream_text (items : list StreamItem) : string :=
  match items with
  | [] => EmptyString
  | Msg (Assistant cs) :: r => push_texts EmptyString cs ++ stream_text r
  | _ :: r => stream_text r
  end.

Definition is_completed (it : StreamItem) : bool :=
  match it with Msg (Result _ _ _ _) => true | _ => false end.

Definition is_error_completed (it : StreamItem) : bool :=
  match it with Msg (Result _ _ true _) => true | _ => false end.

End Amp.

(** ** src/prompts.rs: [build_iteration_prompt], journal helpers *)
Module Journal.
Import Types.

Definition NL : string := String Prompts.LF EmptyString.
Definition DQ : string := String (ascii_of_nat 34) EmptyString.

(** [criteria]: [- c] per criterion, joined with newlines. *)
Definition criteria_block (cs : list string) : string :=
  String.concat NL (map (fun c => "- " ++ c) cs).

Definition build_iteration_prompt (base_prompt : string) (story : Story)
    (progress : string) : string :=
  base_prompt ++ NL ++ NL ++ "## Current Task" ++ NL ++ NL
  ++ "**Story ID:** " ++ id story ++ NL
  ++ "**Title:** " ++ title story ++ NL
  ++ "**Description:** " ++ description story ++ NL ++ NL
  ++ "### Acceptance Criteria" ++ NL ++ criteria_block (acceptance_criteria story)
  ++ NL ++ NL ++ "## Previous Learnings" ++ NL
  ++ (if Types.is_empty progress then "(none yet)" else progress)
  ++ NL ++ NL ++ "## Instructions" ++ NL ++ NL
  ++ "1. Implement this story" ++ NL
  ++ "2. Run typecheck and tests" ++ NL
  ++ "3. If passing, commit with message: " ++ DQ ++ "feat(" ++ id story ++ "): "
  ++ title story ++ DQ ++ NL
  ++ "4. Mark the story as done by setting `passes: true` in prd.json" ++ NL
  ++ "5. Append learnings to progress.txt" ++ NL
  ++ "6. If you discover reusable patterns, update AGENTS.md" ++ NL.

(** [format!("\n## [{timestamp}] Completed: {story_id}\n")]. *)
Definition completed_entry (ts sid : string) : string :=
  NL ++ "## [" ++ ts ++ "] Completed: " ++ sid ++ NL.

(** [format!("\n## [{timestamp}] Failed: {story_id}\nError: {e}\n")]. *)
Definition failed_entry (ts sid e : string) : string :=
  NL ++ "## [" ++ ts ++ "] Failed: " ++ sid ++ NL ++ "Error: " ++ e ++ NL.

End Journal.

(** ** src/workflows.rs: [run_command] (and its older copy in main.rs)

    The file system, the clock and the agent are the environment [World]:
    the agent's session changes it (it edits prd.json, the journal, ...). *)
Module Workflows.
Import Types Amp Journal.

(** What the loop does, for counting: a Session Driver invocation for a
    story, or an entry appended to the journal (progress.txt). *)
Inductive event : Type :=
| Invoke (story_id : string)
| Journaled (entry : string).

(** The environment of a run. *)
Record Env (World : Type) := mkEnv {
  (** [fs::read_to_string] of prd.json. *)
  prd_text : World -> result string;
  (** serde_json's text layer: a JSON value from text. *)
  json_of_text : string -> result Serde.json;
  (** The journal file: [None] when the path does not exist, else the read. *)
  progress_file : World -> option (result string);
  (** [fs::write] of the journal. *)
  write_progress : World -> string -> result World;
  (** The prompt file read ([--prompt] given, or main.rs's prompt.md). *)
  prompt_file : World -> result string;
  custom_prompt : bool;
  DEFAULT_PROMPT : string;
  DEFAULT_PROGRESS_TEMPLATE : string;
  (** [cwd.canonicalize()]. *)
  canonicalize : World -> result string;
  (** The agent: the stream it delivers for a prompt, and its effect. *)
  session : World -> string -> list StreamItem * World;
  (** [Local::now().format(..)]. *)
  now : World -> string
}.
Arguments prd_text {World} _ _.
Arguments json_of_text {World} _ _.
Arguments progress_file {World} _ _.
Arguments write_progress {World} _ _ _.
Arguments prompt_file {World} _ _.
Arguments custom_prompt {World} _.
Arguments DEFAULT_PROMPT {World} _.
Arguments DEFAULT_PROGRESS_TEMPLATE {World} _.
Arguments canonicalize {World} _ _.
Arguments session {World} _ _ _.
Arguments now {World} _ _.

Section Run.
Context {World : Type} (E : Env World).

(** [load_prd]: errors carry the outermost context. *)
Definition load_prd (w : World) : result Prd :=
  match prd_text E w with
  | Err _ => Err "Failed to read prd.json"
  | Ok t =>
      match (let? v := json_of_text E t in Serde.de_prd v) with
      | Err _ => Err "Failed to parse prd.json"
      | Ok p => Ok p
      end
  end.

(** [load_progress] with the text used for a missing file (the template in
    prompts.rs, the empty string in main.rs). *)
Definition load_progress_with (dflt : string) (w : World) : result string :=
  match progress_file E w with
  | None => Ok dflt
  | Some (Ok s) => Ok s
  | Some (Err _) => Err "Failed to read progress file"
  end.

(** [append_progress]: [load_progress(path).unwrap_or_default()], push the
    entry and a newline, write back. *)
Definition append_progress_with (dflt : string) (w : World) (entry : string)
    : result World :=
  let content := match load_progress_with dflt w with Ok s => s | Err _ => EmptyString end in
  match write_progress E w (content ++ entry ++ NL) with
  | Ok w' => Ok w'
  | Err _ => Err "Failed to write progress.txt"
  end.

(** [run_iteration(&prompt, &cwd, ..)] in world [w]. *)
Definition run_iteration_in (w : World) (prompt : string) : result string * World :=
  match canonicalize E w with
  | Err e => (Err e, w)
  | Ok cwd =>
      let (items, w1) := session E w prompt in
      (run_iteration (Ok cwd) items, w1)
  end.

(** The [for iteration in 1..=max_iterations] loop; [n] iterations are
    left.  [dflt] is the journal's missing-file text and [after_ok] what
    follows a successful invocation's journal entry (workflows.rs reloads
    prd.json with [?] for the progress bar; main.rs does nothing).  Returns
    the outcome, the final world, and the events in order. *)
Fixpoint run_loop (dflt : string) (after_ok : World -> result unit)
    (base_prompt : string) (n : nat) (w : World)
    : result World * list event :=
  match n with
  | O => (Ok w, [])
  | S n' =>
      match load_prd w with
      | Err e => (Err e, [])
      | Ok prd =>
          match get_next_story prd with
          | None => (Ok w, [])
          | Some story =>
              match load_progress_with dflt w with
              | Err e => (Err e, [])
              | Ok progress =>
                  let prompt := build_iteration_prompt base_prompt story progress in
                  let (r, w1) := run_iteration_in w prompt in
                  let entry := match r with
                               | Ok _ => completed_entry (now E w1) (id story)
                               | Err e => failed_entry (now E w1) (id story) e
                               end in
                  match append_progress_with dflt w1 entry with
                  | Err e => (Err e, [Invoke (id story)])
                  | Ok w2 =>
                      match (if is_ok r then after_ok w2 else Ok tt) with
                      | Err e => (Err e, [Invoke (id story); Journaled entry])
                      | Ok _ =>
                          let (res, evs) := run_loop dflt after_ok base_prompt n' w2 in
                          (res, Invoke (id story) :: Journaled entry :: evs)
                      end
                  end
              end
          end
      end
  end.

(** [load_prompt] of prompts.rs. *)
Definition load_prompt (w : World) : result string :=
  if custom_prompt E then prompt_file E w else Ok (DEFAULT_PROMPT E).

(** [run_command] of workflows.rs. *)
Definition run_command (max_iterations : nat) (w : World) : result unit * list event :=
  match load_prompt w with
  | Err e => (Err e, [])
  | Ok base_prompt =>
      match load_prd w with
      | Err e => (Err e, [])
      | Ok _initial_prd =>
          let after_ok w2 := let? _ := load_prd w2 in Ok tt in
          let (r, evs) := run_loop (DEFAULT_PROGRESS_TEMPLATE E) after_ok base_prompt
                            max_iterations w in
          match r with
          | Err e => (Err e, evs)
          | Ok w' =>
              (* [print_final_summary(&prd_path)?] *)
              match load_prd w' with
              | Err e => (Err e, evs)
              | Ok _ => (Ok tt, evs)
              end
          end
      end
  end.

(** [run_command] of main.rs. *)
Definition run_command_main (max_iterations : nat) (w : World) : result unit * list event :=
  match prompt_file E w with
  | Err _ => (Err "Failed to read prompt.md", [])
  | Ok base_prompt =>
      let (r, evs) := run_loop EmptyString (fun _ => Ok tt) base_prompt max_iterations w in
      match r with
      | Err e => (Err e, evs)
      | Ok _ => (Ok tt, evs)
      end
  end.

End Run.

Definition invocations (evs : list event) : nat :=
  length (filter (fun e => match e with Invoke _ => true | _ => false end) evs).

End Workflows.

(** ** src/prompts.rs: the planning and extraction prompts *)
Module Templates.
Import Journal.

(** [str::replace(from, to)]: the matches of [from] are found left to
    right without overlapping, each is replaced by [to] and the text
    between them is copied.  [skip] counts the characters of the current
    match still to drop.  An empty [from] matches before every character
    and at the end. *)
Fixpoint replace_from (from to : string) (skip : nat) (s : string) : string :=
  match s with
  | EmptyString => EmptyString
  | String c r =>
      match skip with
      | S k => replace_from from to k r
      | O => if String.prefix from s
             then to ++ replace_from from to (String.length from - 1) r
             else String c (replace_from from to 0 r)
      end
  end.

Fixpoint replace_empty (to s : string) : string :=
  match s with
  | EmptyString => to
  | String c r => to ++ String c (replace_empty to r)
  end.

Definition replace (s from to : string) : string :=
  match from with
  | EmptyString => replace_empty to s
  | _ => replace_from from to 0 s
  end.

(** [PLANNING_PROMPT_TEMPLATE], a raw string. *)
Definition PLANNING_PROMPT_TEMPLATE : string :=
"You are an AI planning assistant helping a developer break down their project into actionable user stories for a Product Requirements Document (PRD).

## Your Role

1. Have a natural conversation to understand what they want to build
2. Ask clarifying questions about:
   - Core functionality and features
   - Technical constraints or preferences
   - Success criteria
   - Edge cases and error handling
   - Testing requirements

3. Propose a breakdown into stories with:
   - Clear, focused scope (each story should be completable in one session)
   - Specific acceptance criteria
   - Logical priority ordering
   - Unique story IDs (format: STORY-001, STORY-002, etc.)

4. Refine based on their feedback

## Guidelines

- Keep stories small and focused (prefer 8-12 stories over 2-3 mega-stories)
- Order by dependency (foundational work first)
- Include setup/infrastructure stories
- Include testing/validation stories
- Be specific in acceptance criteria
- Use technical language appropriate for developers

## Conversation Style

- Be concise but thorough
- Ask one question at a time or group related questions
- Confirm understanding before proposing stories
- Be open to iteration and refinement

{initial_context}

Begin by understanding what the user wants to build.".

(** [EXTRACTION_PROMPT], a raw string: its doubled braces are kept as
    they are, since the constant is used with [replace], not [format!]. *)
Definition EXTRACTION_PROMPT : string :=
"You are a structured data extraction assistant. Review the conversation history below and extract a valid PRD (Product Requirements Document) in JSON format.

## Required JSON Structure

{{
  " ++ DQ ++ "branchName" ++ DQ ++ ": " ++ DQ ++ "feature/descriptive-name" ++ DQ ++ ",
  " ++ DQ ++ "stories" ++ DQ ++ ": [
    {{
      " ++ DQ ++ "id" ++ DQ ++ ": " ++ DQ ++ "STORY-001" ++ DQ ++ ",
      " ++ DQ ++ "title" ++ DQ ++ ": " ++ DQ ++ "Brief title" ++ DQ ++ ",
      " ++ DQ ++ "description" ++ DQ ++ ": " ++ DQ ++ "Detailed description of what needs to be done" ++ DQ ++ ",
      " ++ DQ ++ "priority" ++ DQ ++ ": 1,
      " ++ DQ ++ "passes" ++ DQ ++ ": false,
      " ++ DQ ++ "acceptance_criteria" ++ DQ ++ ": [
        " ++ DQ ++ "Specific criterion 1" ++ DQ ++ ",
        " ++ DQ ++ "Specific criterion 2" ++ DQ ++ "
      ]
    }}
  ]
}}

## Requirements

1. Generate a meaningful branch name based on the project
2. Extract all agreed-upon stories from the conversation
3. Priority: number from 1 (highest) to N (lowest), ordered by implementation sequence
4. Set all " ++ DQ ++ "passes" ++ DQ ++ " to false (work hasn't started yet)
5. Acceptance criteria should be specific, testable conditions

## Output Format

Output ONLY the JSON, no markdown fences, no explanation text.
Start with {{ and end with }}

## Conversation History

{conversation_history}".

(** The [initial_context] of [build_planning_prompt]. *)
Definition initial_context (initial_description : option string) : string :=
  match initial_description with
  | Some desc =>
      NL ++ "## Initial Project Description" ++ NL ++ NL ++ desc ++ NL ++ NL
      ++ "Start by clarifying any questions about this description."
  | None => EmptyString
  end.

Definition build_planning_prompt (initial_description : option string) : string :=
  replace PLANNING_PROMPT_TEMPLATE "{initial_context}" (initial_context initial_description).

Definition build_extraction_prompt (conversation_history : string) : string :=
  replace EXTRACTION_PROMPT "{conversation_history}" conversation_history.

End Templates.

(** ** src/workflows.rs: [run_plan_command], with [check_output_file] and
    [save_prd] of types.rs *)
Module Plan.
Import Types Prompts Serde Amp Journal Workflows Templates.

(** [char::to_lowercase] on U+0000..U+00FF: A-Z and the Latin-1 capitals
    U+00C0..U+00DE other than U+00D7 map to the letter 0x20 above; every
    other character is its own lowercase. *)
Definition char_to_lowercase (c : ascii) : ascii :=
  let n := nat_of_ascii c in
  if ((65 <=? n) && (n <=? 90))%nat || ((192 <=? n) && (n <=? 222) && negb (n =? 215))%nat
  then ascii_of_nat (n + 32) else c.

(** [str::to_lowercase]. *)
Fixpoint to_lowercase (s : string) : string :=
  match s with
  | EmptyString => EmptyString
  | String c r => String (char_to_lowercase c) (to_lowercase r)
  end.

(** [check_output_file(path, force)], [path.exists()] given as [exists_]
    (the path in the message is left out). *)
Definition check_output_file (exists_ force : bool) : result unit :=
  if exists_ && negb force
  then Err "PRD file already exists. Use --force to overwrite."
  else Ok tt.

(** The environment of [run_plan_command]: the agent, [cwd] and serde_json's
    reader come from a run environment. *)
Record PlanEnv (World : Type) := mkPlanEnv {
  run_env : Env World;
  (** [output_path.exists()]. *)
  output_exists : World -> bool;
  (** [serde_json::to_string_pretty] (it cannot fail on a [Prd]). *)
  text_of_json : json -> string;
  (** [fs::write(output_path, ..)]. *)
  write_output : World -> string -> result World;
  (** [io::stdout().flush()]. *)
  flush_stdout : World -> result unit;
  (** [io::stdin().read_line(..)]: the line read, with its line ending. *)
  read_line : World -> result string * World
}.
Arguments run_env {World} _.
Arguments output_exists {World} _ _.
Arguments text_of_json {World} _ _.
Arguments write_output {World} _ _ _.
Arguments flush_stdout {World} _ _.
Arguments read_line {World} _ _.

(** What the planning command does to the outside: an agent run with a
    prompt, or the write of the output file with a content. *)
Inductive plan_event : Type :=
| Asked (prompt : string)
| Saved (content : string).

(** How [run_plan_command] ends: a result in a world, or a panic (of
    [clean_json_response]). *)
Inductive plan_end (World : Type) : Type :=
| PlanReturns : result unit -> World -> plan_end World
| PlanPanics : plan_end World.
Arguments PlanReturns {World} _ _.
Arguments PlanPanics {World}.

Section PlanRun.
Context {World : Type} (P : PlanEnv World).

(** [save_prd(&output_path, &prd)]. *)
Definition save_prd (w : World) (prd : Prd) : result World :=
  match write_output P w (text_of_json P (ser_prd prd)) with
  | Ok w' => Ok w'
  | Err _ => Err "Failed to write prd.json"
  end.

(** [input.trim().to_lowercase() != "y"] negated. *)
Definition answer_is_yes (input : string) : bool :=
  String.eqb (to_lowercase (trim input)) "y".

(** [run_plan_command]: errors carry the outermost context. *)
Definition run_plan_command (w : World) (description : option string) (force : bool)
    : plan_end World * list plan_event :=
  let E := run_env P in
  match check_output_file (output_exists P w) force with
  | Err _ => (PlanReturns (Err "Output file validation failed") w, [])
  | Ok _ =>
      let prompt := build_planning_prompt description in
      let (r1, w1) := run_iteration_in E w prompt in
      match r1 with
      | Err _ => (PlanReturns (Err "Planning session failed") w1, [Asked prompt])
      | Ok conversation =>
          let extraction_prompt := build_extraction_prompt conversation in
          let (r2, w2) := run_iteration_in E w1 extraction_prompt in
          let asked := [Asked prompt; Asked extraction_prompt] in
          match r2 with
          | Err e => (PlanReturns (Err e) w2, asked)
          | Ok json_response =>
              match clean_json_response json_response with
              | Panics => (PlanPanics, asked)
              | Returns (Err _) =>
                  (PlanReturns (Err "Failed to extract JSON from agent response") w2, asked)
              | Returns (Ok cleaned) =>
                  match (let? v := json_of_text E cleaned in de_prd v) with
                  | Err _ => (PlanReturns (Err "Failed to parse generated PRD JSON") w2, asked)
                  | Ok prd =>
                      match validate_prd prd with
                      | Err _ => (PlanReturns (Err "PRD validation failed") w2, asked)
                      | Ok _ =>
                          match flush_stdout P w2 with
                          | Err e => (PlanReturns (Err e) w2, asked)
                          | Ok _ =>
                              let (r3, w3) := read_line P w2 in
                              match r3 with
                              | Err e => (PlanReturns (Err e) w3, asked)
                              | Ok input =>
                                  if negb (answer_is_yes input)
                                  then (PlanReturns (Ok tt) w3, asked)
                                  else
                                    let content := text_of_json P (ser_prd prd) in
                                    let saved := (asked ++ [Saved content])%list in
                                    match save_prd w3 prd with
                                    | Err _ => (PlanReturns (Err "Failed to save PRD") w3, saved)
                                    | Ok w4 => (PlanReturns (Ok tt) w4, saved)
                                    end
                              end
                          end
                      end
                  end
              end
          end
      end
  end.

End PlanRun.

End Plan.

(** ** src/workflows.rs: [print_final_summary] *)
Module Summary.
Import Types Prompts Workflows.

(** The two messages of the summary. *)
Inductive summary : Type :=
| AllCompleted (total : nat)
| SomeCompleted (completed total remaining : nat).

(** [total - completed] is a [usize] subtraction: it panics on underflow
    (debug builds). *)
Definition print_final_summary {World} (E : Env World) (w : World) : outcome summary :=
  match load_prd E w with
  | Err e => Returns (Err e)
  | Ok prd =>
      let total := length (stories prd) in
      let completed := length (filter passes (stories prd)) in
      if (completed <=? total)%nat then
        let remaining := (total - completed)%nat in
        Returns (Ok (if (remaining =? 0)%nat then AllCompleted total
                     else SomeCompleted completed total remaining))
      else Panics
  end.

End Summary.

(** ** src/output.rs *)
Module Output.

Inductive OutputMode : Type := Normal | Verbose | Quiet.


(** [OUTPUT_MODE], a [OnceLock]: [None] until set. *)
Definition cell := option OutputMode.




(** The mark printed before a message. *)
Inductive icon : Type := Check | Cross | Warning | Bullet | Arrow | Circle | Gear | NoIcon.


Definition error (c : cell) (msg : string) : list (icon * string) :=
  [(Cross, msg)].



End Output.

(** ** Sample inputs and auxiliary predicates *)
Module Samples.
Import Types Serde Prompts Journal Amp Workflows.

Definition st (i : string) (p : Z) (done : bool) : Story :=
  mkStory i "t" "d" p done ["c"].

(** The per-story checks of [validate_prd]. *)
Definition story_ok (s : Story) : Prop :=
  id s <> EmptyString /\ title s <> EmptyString /\ description s <> EmptyString
  /\ 0 < priority s /\ acceptance_criteria s <> [].

Definition CRLF : string := String CR (String LF EmptyString).

(** The spec's examples. *)
Definition noise_input : string :=
  "noise {" ++ DQ ++ "a" ++ DQ ++ ":1} trailing".
Definition fenced_input : string :=
  fence ++ "json" ++ NL ++ "{" ++ DQ ++ "a" ++ DQ ++ ":1}" ++ NL ++ fence.
Definition a_one : string := "{" ++ DQ ++ "a" ++ DQ ++ ":1}".

(** A fenced block with CRLF line endings. *)
Definition crlf_fenced : string :=
  fence ++ CRLF ++ "{" ++ CRLF ++ "}" ++ CRLF ++ fence.

(** The keys the derived impls give a field. *)
Definition story_keys : list string :=
  ["id"; "title"; "description"; "priority"; "passes"; "acceptance_criteria"].
Definition prd_keys : list string := ["branchName"; "stories"].

Definition is_key (keys : list string) (kv : string * json) : bool :=
  existsb (String.eqb (fst kv)) keys.

(** A document carrying a key no field names. *)
Definition doc_with_unknown_keys : json :=
  JObject [("branchName", JString "feature/x");
           ("stories", JArray [JObject [("id", JString "S-1"); ("title", JString "t");
                                        ("description", JString "d");
                                        ("estimate", JNumber 3)]]);
           ("owner", JString "me")].

Definition sample_prd : Prd :=
  mkPrd "feature/login"
    [mkStory "STORY-001" "Schema" "Add the users table" 1 false ["migration runs"];
     mkStory "STORY-002" "Form" "Login form" 2 true ["renders"; "submits"]].

(** An environment whose document always has a pending story. *)
Definition pending_doc : json :=
  ser_prd (mkPrd "feature/x" [mkStory "S-1" "t" "d" 1 false ["c"]]).

Definition sample_env : Env nat :=
  mkEnv nat (fun _ => Ok "prd.json text") (fun _ => Ok pending_doc) (fun _ => None)
    (fun w _ => Ok (S w)) (fun _ => Ok "prompt") false "base prompt" "template"
    (fun _ => Ok "/repo") (fun w _ => ([Msg (Assistant [Text "ok"])], S w))
    (fun _ => "2026-10-18 12:00:00").

End Samples.

(** ** Auxiliary definitions of the further properties *)
Module Aux.
Import Types Serde Prompts Journal Amp Workflows Samples.

(** The stories not yet done. *)
Definition pending (prd : Prd) : nat :=
  length (filter (fun s => negb (passes s)) (stories prd)).

(** A story with [passes] set, as the agent marks it. *)
Definition mark_done (s : Story) : Story :=
  mkStory (id s) (title s) (description s) (priority s) true (acceptance_criteria s).

(** The journal text the entries of an event trace append, each followed by
    the newline [append_progress] pushes. *)
Fixpoint journal_text (evs : list event) : string :=
  match evs with
  | [] => EmptyString
  | Journaled e :: r => e ++ NL ++ journal_text r
  | Invoke _ :: r => journal_text r
  end.



(** The brace step of [clean_json_response], on the text after the fence
    step. *)
Definition extract_braces (wf : string) : outcome string :=
  match find OPEN wf with
  | None => Returns (Err "No opening brace found in response")
  | Some start =>
      match rfind CLOSE wf with
      | None => Returns (Err "No closing brace found in response")
      | Some end_ => slice_inclusive wf start end_
      end
  end.

(** [str::split('\n')]: every piece, the last one included. *)
Fixpoint split_lf_from (cur : list ascii) (s : string) : list string :=
  match s with
  | EmptyString => [string_of_list_ascii (rev cur)]
  | String c r =>
      if Ascii.eqb c LF then string_of_list_ascii (rev cur) :: split_lf_from [] r
      else split_lf_from (c :: cur) r
  end.

Definition is_some {A} (o : option A) : bool :=
  match o with Some _ => true | None => false end.

(** Whether the slot a key fills in [Story]'s [visit_map] is already set. *)
Definition story_slot_set (k : string) (sl : StorySlots) : bool :=
  if String.eqb k "id" then is_some (s_id sl)
  else if String.eqb k "title" then is_some (s_title sl)
  else if String.eqb k "description" then is_some (s_description sl)
  else if String.eqb k "priority" then is_some (s_priority sl)
  else if String.eqb k "passes" then is_some (s_passes sl)
  else if String.eqb k "acceptance_criteria" then is_some (s_criteria sl)
  else false.

(** The same for [Prd]'s slots. *)
Definition prd_slot_set (k : string) (b : option string) (ss : option (list Story)) : bool :=
  if String.eqb k "branchName" then is_some b
  else if String.eqb k "stories" then is_some ss
  else false.

(** How many entries of a map carry key [k]. *)
Definition count_key (k : string) (fs : list (string * json)) : nat :=
  length (filter (fun kv => String.eqb (fst kv) k) fs).

(** How many stories carry id [i]. *)
Definition count_id (i : string) (ss : list Story) : nat :=
  length (filter (fun s => String.eqb (id s) i) ss).

(** The keys [Story]'s and [Prd]'s [visit_map] store in a slot. *)
Definition story_keys : list string :=
  ["id"; "title"; "description"; "priority"; "passes"; "acceptance_criteria"].

Definition prd_keys : list string := ["branchName"; "stories"].

(** A document two of whose stories share an id. *)
Definition dup_doc : Prd := mkPrd "feature/x" [st "S-1" 1 false; st "S-1" 2 false].

(** A journal kept in the world, and a document with a pending story. *)
Definition journal_env : Env string :=
  mkEnv string (fun _ => Ok "prd.json text") (fun _ => Ok pending_doc)
    (fun w => Some (Ok w)) (fun _ s => Ok s) (fun _ => Ok "prompt") false
    "base prompt" "template" (fun _ => Ok "/repo")
    (fun w _ => ([Msg (Assistant [Text "ok"])], w))
    (fun _ => "2026-10-18 12:00:00").

(** Two stories; world [k] has the first [k] of them done, and every
    session marks the next one. *)
Definition two_doc (k : nat) : Prd :=
  mkPrd "feature/x" [st "S-1" 1 (1 <=? k)%nat; st "S-2" 2 (2 <=? k)%nat].

Definition marking_env : Env nat :=
  mkEnv nat
    (fun w => Ok (match w with O => "0" | S O => "1" | _ => "2" end))
    (fun t => if String.eqb t "0" then Ok (ser_prd (two_doc 0))
              else if String.eqb t "1" then Ok (ser_prd (two_doc 1))
              else Ok (ser_prd (two_doc 2)))
    (fun _ => None) (fun w _ => Ok w) (fun _ => Ok "prompt") false
    "base prompt" "template" (fun _ => Ok "/repo")
    (fun w _ => ([Msg (Assistant [Text "done"])], S w))
    (fun _ => "2026-10-18 12:00:00").

(** A planning run: the first session talks, the second answers with a
    fenced document, and the user answers [" Y"]. *)
Definition plan_answer : string := fence ++ "json" ++ NL ++ "{prd}" ++ NL ++ fence.

Definition plan_env : Plan.PlanEnv nat :=
  Plan.mkPlanEnv nat
    (mkEnv nat (fun _ => Ok "prd.json text")
       (fun t => if String.eqb t "{prd}" then Ok (ser_prd sample_prd)
                 else Err "expected value")
       (fun _ => None) (fun w _ => Ok w) (fun _ => Ok "prompt") false
       "base prompt" "template" (fun _ => Ok "/repo")
       (fun w _ => match w with
                   | O => ([Msg (Assistant [Text "conversation"])], 1%nat)
                   | _ => ([Msg (Assistant [Text plan_answer])], 2%nat)
                   end)
       (fun _ => "2026-10-18 12:00:00"))
    (fun _ => false) (fun _ => "pretty json") (fun w _ => Ok (S w))
    (fun _ => Ok tt) (fun w => (Ok (" Y" ++ NL), w)).

End Aux.

(** * Properties *)

(** ** The scheduler *)
Module SchedulerFacts.
Import Samples.
Import Types.
Local Open Scope list_scope.

Section MinByKey.
Context {A : Type} (key : A -> Z).

(** The [reduce] keeps the first element of least key seen so far. *)
Lemma fold_min_first (xs : list A) (acc : A) :
  exists pre post, acc :: xs = pre ++ fold_left (min_step key) xs acc :: post
    /\ (forall t, In t pre -> key (fold_left (min_step key) xs acc) < key t)
    /\ (forall t, In t post -> key (fold_left (min_step key) xs acc) <= key t).
Proof.
  induction xs as [|y xs IH] using rev_ind.
  - exists [], []. simpl. split; [|split]; auto; intros t [].
  - destruct IH as (pre & post & Heq & Hpre & Hpost).
    rewrite fold_left_app. simpl.
    set (r := fold_left (min_step key) xs acc) in *.
    unfold min_step. clearbody r.
    destruct (Z.compare_spec (key r) (key y)) as [Hc|Hc|Hc].
    +       exists pre, (post ++ [y]). split; [|split].
      * rewrite app_comm_cons, Heq. now rewrite <- app_assoc.
      * exact Hpre.
      * intros t Ht. apply in_app_or in Ht as [Ht|[<-|[]]]; [now apply Hpost | lia].
    +       exists pre, (post ++ [y]). split; [|split].
      * rewrite app_comm_cons, Heq. now rewrite <- app_assoc.
      * exact Hpre.
      * intros t Ht. apply in_app_or in Ht as [Ht|[<-|[]]]; [now apply Hpost | lia].
    +       exists (acc :: xs), []. split; [|split].
      * reflexivity.
      * intros t Ht. rewrite Heq in Ht.
        apply in_app_or in Ht as [Ht|[<-|Ht]].
        -- specialize (Hpre t Ht). lia.
        -- lia.
        -- specialize (Hpost t Ht). lia.
      * intros t [].
  Qed.

Lemma min_by_key_none (l : list A) : min_by_key key l = None <-> l = [].
Proof. destruct l; simpl; split; congruence. Qed.

Lemma min_by_key_some (l : list A) (m : A) :
  min_by_key key l = Some m ->
  exists pre post, l = pre ++ m :: post
    /\ (forall t, In t pre -> key m < key t)
    /\ (forall t, In t post -> key m <= key t).
Proof.
  destruct l as [|x xs]; simpl; [discriminate|].
  intros H. injection H as <-.
  exact (fold_min_first xs x).
Qed.

End MinByKey.

(** An element of a filtered list comes from a split of the original. *)
Lemma filter_split {A} (p : A -> bool) (l pre' post' : list A) (m : A) :
  filter p l = pre' ++ m :: post' ->
  exists pre post, l = pre ++ m :: post /\ filter p pre = pre' /\ p m = true.
Proof.
  revert pre'. induction l as [|x l IH]; intros pre' H; simpl in H.
  - destruct pre'; discriminate.
  - destruct (p x) eqn:Hp.
    + destruct pre' as [|y pre'].
      * injection H as -> _. exists [], l. simpl. auto.
      * injection H as -> H. destruct (IH pre' H) as (pre & post & -> & Hf & Hm).
        exists (y :: pre), post. simpl. rewrite Hp, Hf. auto.
    + destruct (IH pre' H) as (pre & post & -> & Hf & Hm).
      exists (x :: pre), post. simpl. rewrite Hp. auto.
Qed.

Example next_story_tie :
  get_next_story (mkPrd "b" [st "A" 2 false; st "B" 1 true; st "C" 1 false; st "D" 1 false])
  = Some (st "C" 1 false).
Proof. reflexivity. Qed.

Example next_story_all_done :
  get_next_story (mkPrd "b" [st "A" 2 true; st "B" 1 true]) = None.
Proof. reflexivity. Qed.

(** C1: [get_next_story] returns [None] exactly when every story has
    [passes = true]; otherwise it returns a not-done story of least priority,
    and every not-done story before it in the document has a strictly larger
    priority (the first of the minima in document order). *)
Theorem get_next_story_spec (prd : Prd) :
  (get_next_story prd = None <-> forall s, In s (stories prd) -> passes s = true)
  /\ (forall s, get_next_story prd = Some s ->
        exists pre post, stories prd = pre ++ s :: post
          /\ passes s = false
          /\ (forall t, In t pre -> passes t = false -> priority s < priority t)
          /\ (forall t, In t post -> passes t = false -> priority s <= priority t)).
Proof.
  unfold get_next_story. split.
  - rewrite min_by_key_none. split.
    + intros Hf s Hin. destruct (passes s) eqn:Hp; [reflexivity|].
      assert (Hin' : In s (filter (fun s => negb (passes s)) (stories prd))).
      { apply filter_In. rewrite Hp. auto. }
      rewrite Hf in Hin'. destruct Hin'.
    + intros Hall. destruct (filter _ _) as [|x l] eqn:Hf; [reflexivity|].
      assert (Hx : In x (filter (fun s => negb (passes s)) (stories prd))).
      { rewrite Hf. left. reflexivity. }
      apply filter_In in Hx as [Hin Hp]. rewrite (Hall x Hin) in Hp. discriminate.
  - intros s Hs.
    destruct (min_by_key_some priority _ s Hs) as (pre' & post' & Hsplit & Hpre' & Hpost').
    destruct (filter_split _ _ _ _ _ Hsplit) as (pre & post & Heq & Hfpre & Hps).
    exists pre, post. split; [exact Heq|]. split; [now apply negb_true_iff|]. split.
    + intros t Ht Hpt. apply Hpre'. rewrite <- Hfpre. apply filter_In.
      rewrite Hpt. auto.
    + intros t Ht Hpt.
      assert (Hin : In t (filter (fun s => negb (passes s)) (stories prd))).
      { apply filter_In. rewrite Hpt, Heq. split; [|reflexivity].
        apply in_or_app. right. right. exact Ht. }
      rewrite Hsplit in Hin. apply in_app_or in Hin as [Hin|[<-|Hin]].
      * specialize (Hpre' t Hin). lia.
      * lia.
      * now apply Hpost'.
Qed.

End SchedulerFacts.

(** ** Validation *)
Module ValidationFacts.
Import Samples.
Import Types.
Local Open Scope list_scope.

Lemma is_empty_iff (s : string) : is_empty s = true <-> s = EmptyString.
Proof. destruct s; simpl; split; congruence. Qed.

Lemma existsb_eqb_in (k : string) (l : list string) :
  existsb (String.eqb k) l = true <-> In k l.
Proof.
  rewrite existsb_exists. split.
  - intros (x & Hx & Heq). apply String.eqb_eq in Heq. now subst.
  - intros H. exists k. split; [exact H|]. apply String.eqb_refl.
Qed.

Ltac ok_false := split; [discriminate | intros (Hall & Hnd & Hseen); exfalso].

(** The loop of [validate_prd] succeeds exactly when every story passes
    the per-story checks, ids are pairwise distinct, and none was seen. *)
Lemma validate_stories_ok (seen : list string) (ss : list Story) :
  validate_stories seen ss = Ok tt <->
  (forall s, In s ss -> story_ok s) /\ NoDup (map id ss)
  /\ (forall s, In s ss -> ~ In (id s) seen).
Proof.
  revert seen. induction ss as [|s ss IH]; intros seen; simpl.
  - split; [|reflexivity]. intros _. repeat split; try tauto. constructor.
  - destruct (is_empty (id s)) eqn:Hi.
    { ok_false. apply is_empty_iff in Hi. destruct (Hall s (or_introl eq_refl)) as (Q1 & Q2 & Q3 & Q4 & Q5); congruence. }
    destruct (is_empty (title s)) eqn:Ht.
    { ok_false. apply is_empty_iff in Ht. destruct (Hall s (or_introl eq_refl)) as (Q1 & Q2 & Q3 & Q4 & Q5); congruence. }
    destruct (is_empty (description s)) eqn:Hd.
    { ok_false. apply is_empty_iff in Hd. destruct (Hall s (or_introl eq_refl)) as (Q1 & Q2 & Q3 & Q4 & Q5); congruence. }
    destruct (0 <? priority s) eqn:Hp; simpl.
    2:{ ok_false. apply Z.ltb_ge in Hp. destruct (Hall s (or_introl eq_refl)) as (_&_&_&Hlt&_). lia. }
    destruct (acceptance_criteria s) eqn:Hc.
    { ok_false. destruct (Hall s (or_introl eq_refl)) as (Q1 & Q2 & Q3 & Q4 & Q5); congruence. }
    unfold hs_insert. destruct (existsb (String.eqb (id s)) seen) eqn:He; simpl.
    { ok_false. apply existsb_eqb_in in He.
      exact (Hseen s (or_introl eq_refl) He). }
    assert (Hs : story_ok s).
    { unfold story_ok. rewrite Hc.
      repeat split; try discriminate; try (intro E; apply is_empty_iff in E; congruence).
      apply Z.ltb_lt, Hp. }
    assert (Hns : ~ In (id s) seen).
    { intro E. apply existsb_eqb_in in E. congruence. }
    rewrite IH. split.
    + intros (Hall & Hnd & Hseen). split; [|split].
      * intros t [<-|Hu]; auto.
      * constructor; [|exact Hnd]. intro Hin. apply in_map_iff in Hin as (t & Hid & Hu).
        apply (Hseen t Hu). rewrite Hid. left. reflexivity.
      * intros t [<-|Hu]; [exact Hns|]. intro Hin. apply (Hseen t Hu). right. exact Hin.
    + intros (Hall & Hnd & Hseen). inversion Hnd as [|? ? Hnin Hnd']. subst.
      split; [|split].
      * intros t Hu. apply Hall. right. exact Hu.
      * exact Hnd'.
      * intros t Hu [Hid|Hin].
        -- apply Hnin. rewrite Hid. apply in_map. exact Hu.
        -- exact (Hseen t (or_intror Hu) Hin).
Qed.

Lemma validate_prd_ok (prd : Prd) :
  validate_prd prd = Ok tt <->
  branch_name prd <> EmptyString /\ stories prd <> []
  /\ (forall s, In s (stories prd) -> story_ok s) /\ NoDup (map id (stories prd)).
Proof.
  unfold validate_prd. destruct (is_empty (branch_name prd)) eqn:Hb.
  { apply is_empty_iff in Hb. split; [discriminate|]. intros (H & _). contradiction. }
  assert (Hb' : branch_name prd <> EmptyString).
  { intro E. apply is_empty_iff in E. congruence. }
  destruct (stories prd) as [|s ss] eqn:Hss.
  { split; [discriminate|]. intros (_ & H & _). contradiction. }
  rewrite <- Hss, validate_stories_ok, Hss. split.
  - intros (Hall & Hnd & _). split; [exact Hb'|split; [discriminate|split; assumption]].
  - intros (_ & _ & Hall & Hnd). split; [exact Hall|split; [exact Hnd|intros ? ? []]].
Qed.

(** C4: [validate_prd] rejects an empty story list, an empty branch name,
    two stories sharing an id, a story of priority zero or below and a story
    without acceptance criteria; a document with none of these defects and
    no empty id, title or description is accepted. *)
Theorem validate_prd_rejects_defects (prd : Prd) :
  (stories prd = [] -> is_ok (validate_prd prd) = false)
  /\ (branch_name prd = EmptyString -> is_ok (validate_prd prd) = false)
  /\ (forall pre mid post s1 s2, stories prd = pre ++ s1 :: mid ++ s2 :: post ->
        id s1 = id s2 -> is_ok (validate_prd prd) = false)
  /\ (forall s, In s (stories prd) -> priority s <= 0 -> is_ok (validate_prd prd) = false)
  /\ (forall s, In s (stories prd) -> acceptance_criteria s = [] ->
        is_ok (validate_prd prd) = false)
  /\ (branch_name prd <> EmptyString -> stories prd <> [] ->
      NoDup (map id (stories prd)) ->
      (forall s, In s (stories prd) ->
         id s <> EmptyString /\ title s <> EmptyString /\ description s <> EmptyString
         /\ 0 < priority s /\ acceptance_criteria s <> []) ->
      validate_prd prd = Ok tt).
Proof.
  assert (Hrej : forall P : Prop, (validate_prd prd = Ok tt -> ~ P) -> P ->
            is_ok (validate_prd prd) = false).
  { intros P H Hp. destruct (validate_prd prd) as [[]|e] eqn:E; [|reflexivity].
    exfalso. exact (H eq_refl Hp). }
  split; [|split; [|split; [|split; [|split]]]].
  - intros Hnil. apply (Hrej True); [|exact I]. intros Hok _.
    apply validate_prd_ok in Hok as (_ & Hne & _). exact (Hne Hnil).
  - intros Hnil. apply (Hrej True); [|exact I]. intros Hok _.
    apply validate_prd_ok in Hok as (Hne & _). exact (Hne Hnil).
  - intros pre mid post s1 s2 Hs Hid. apply (Hrej True); [|exact I].
    intros Hok _. apply validate_prd_ok in Hok as (_ & _ & _ & Hnd).
    rewrite Hs, map_app in Hnd. apply NoDup_app_remove_l in Hnd.
    simpl in Hnd. inversion Hnd as [|? ? Hnin _]. apply Hnin.
    rewrite map_app. apply in_or_app. right. left. symmetry. exact Hid.
  - intros s Hin Hp. apply (Hrej True); [|exact I].
    intros Hok _. apply validate_prd_ok in Hok as (_ & _ & Hall & _).
    destruct (Hall s Hin) as (_ & _ & _ & Hlt & _). lia.
  - intros s Hin Hc. apply (Hrej True); [|exact I].
    intros Hok _. apply validate_prd_ok in Hok as (_ & _ & Hall & _).
    destruct (Hall s Hin) as (_ & _ & _ & _ & Hne). exact (Hne Hc).
  - intros Hb Hne Hnd Hall. apply validate_prd_ok. auto.
Qed.

End ValidationFacts.

(** ** The extractor *)
Module ExtractorFacts.
Import Samples.
Import Prompts Journal.

Lemma find_app_none (c : ascii) (a s : string) :
  find c a = None -> find c (a ++ s) = option_map (Nat.add (String.length a)) (find c s).
Proof.
  induction a as [|d a IH]; simpl; intros H.
  - destruct (find c s); reflexivity.
  - destruct (Ascii.eqb c d); [discriminate|].
    destruct (find c a); [discriminate|]. rewrite IH by reflexivity.
    destruct (find c s); reflexivity.
Qed.

Lemma rfind_app_some (c : ascii) (a s : string) (i : nat) :
  rfind c s = Some i -> rfind c (a ++ s) = Some (String.length a + i)%nat.
Proof.
  induction a as [|d a IH]; simpl; intros H; [exact H|]. now rewrite IH.
Qed.

Lemma substring_app_l (a s : string) (n : nat) :
  substring (String.length a) n (a ++ s) = substring 0 n s.
Proof. induction a as [|d a IH]; simpl; [reflexivity|exact IH]. Qed.

Lemma substring_prefix (s r : string) :
  substring 0 (String.length s) (s ++ r) = s.
Proof. induction s as [|d s IH]; simpl; [now destruct r|now rewrite IH]. Qed.

Lemma string_app_assoc (a b c : string) : (a ++ b) ++ c = a ++ (b ++ c).
Proof. induction a as [|d a IH]; simpl; [reflexivity|now rewrite IH]. Qed.

Lemma length_app (a b : string) : String.length (a ++ b) = (String.length a + String.length b)%nat.
Proof. induction a as [|d a IH]; simpl; [reflexivity|now rewrite IH]. Qed.

(** The boundary search on a text whose first [{] and last [}] are known. *)
Lemma boundaries (a m b : string) :
  find OPEN a = None -> rfind CLOSE b = None ->
  let t := a ++ String OPEN (m ++ String CLOSE b) in
  find OPEN t = Some (String.length a) /\ rfind CLOSE t = Some (String.length a + S (String.length m))%nat.
Proof.
  intros Ha Hb. simpl. split.
  - rewrite find_app_none by exact Ha. simpl. rewrite Nat.add_0_r. reflexivity.
  - apply rfind_app_some. simpl.
    assert (E : rfind CLOSE (m ++ String CLOSE b) = Some (String.length m + 0)%nat).
    { apply rfind_app_some. simpl. rewrite Hb. reflexivity. }
    rewrite E. f_equal. lia.
Qed.

Lemma slice_braces (a m b : string) :
  let t := a ++ String OPEN (m ++ String CLOSE b) in
  slice_inclusive t (String.length a) (String.length a + S (String.length m))
  = Returns (Ok (String OPEN (m ++ String CLOSE EmptyString))).
Proof.
  simpl. unfold slice_inclusive.
  replace ((String.length a <=? S (String.length a + S (String.length m)))%nat) with true
    by (symmetry; apply Nat.leb_le; lia).
  replace (S (String.length a + S (String.length m)) - String.length a)%nat
    with (S (S (String.length m))) by lia.
  rewrite substring_app_l. simpl. f_equal. f_equal. f_equal.
  replace (m ++ String CLOSE b) with ((m ++ String CLOSE EmptyString) ++ b)
    by (rewrite string_app_assoc; reflexivity).
  replace (S (String.length m)) with (String.length (m ++ String CLOSE EmptyString))
    by (rewrite length_app; simpl; lia).
  apply substring_prefix.
Qed.

(** C2 (as amended): after trimming and the fence step, a text without [{]
    fails with the opening-brace error, a text with [{] but without [}]
    fails with the closing-brace error, and a text whose first [{] comes
    before its last [}] yields exactly the inclusive span between them.  The
    fence step splits lines at LF (dropping a CR before it) and rejoins the
    kept lines with LF.  The spec's three examples hold. *)
Theorem clean_json_response_spec (response : string) :
  let t := without_fences (trim response) in
  (find OPEN t = None ->
     clean_json_response response = Returns (Err "No opening brace found in response"))
  /\ (find OPEN t <> None -> rfind CLOSE t = None ->
     clean_json_response response = Returns (Err "No closing brace found in response"))
  /\ (forall a m b, t = a ++ String OPEN (m ++ String CLOSE b) ->
        find OPEN a = None -> rfind CLOSE b = None ->
        clean_json_response response = Returns (Ok (String OPEN (m ++ String CLOSE EmptyString))))
  /\ clean_json_response noise_input = Returns (Ok a_one)
  /\ clean_json_response fenced_input = Returns (Ok a_one)
  /\ clean_json_response "no braces" = Returns (Err "No opening brace found in response").
Proof.
  intros t. unfold clean_json_response. fold t.
  split; [|split; [|split]].
  - intros H. rewrite H. reflexivity.
  - intros H1 H2. destruct (find OPEN t); [|contradiction]. rewrite H2. reflexivity.
  - intros a m b Ht Ha Hb. destruct (boundaries a m b Ha Hb) as [E1 E2].
    rewrite Ht, E1, E2. apply slice_braces.
  - split; [|split]; vm_compute; reflexivity.
Qed.

(** C2 counterexample: with CRLF line endings the kept lines are rejoined
    with LF, so the result is not the text between the fence lines. *)
Lemma clean_json_response_crlf_rejoined :
  clean_json_response crlf_fenced = Returns (Ok ("{" ++ NL ++ "}"))
  /\ clean_json_response crlf_fenced <> Returns (Ok ("{" ++ CRLF ++ "}")).
Proof. split; vm_compute; [reflexivity|discriminate]. Qed.

(** C10: when the last [}] comes before the first [{] with something in
    between, the slice [start..=end] panics; when they are adjacent it is
    empty and the call returns [Ok("")]. *)
Theorem clean_json_response_reversed_braces :
  clean_json_response "}x{" = Panics
  /\ clean_json_response "}{" = Returns (Ok EmptyString).
Proof. split; vm_compute; reflexivity. Qed.

End ExtractorFacts.

(** ** Parsing and serialization of task documents *)
Module SerdeFacts.
Import Samples.
Import Types Serde.
Local Open Scope list_scope.

Lemma story_entry_unknown (sl : StorySlots) (k : string) (v : json) :
  is_key story_keys (k, v) = false -> story_entry sl k v = Ok sl.
Proof.
  unfold is_key; simpl. intros H. destruct sl. unfold story_entry.
  repeat match type of H with
         | context [String.eqb k ?x] => destruct (String.eqb k x); [discriminate|]
         end.
  reflexivity.
Qed.

Lemma story_entries_unknown (sl : StorySlots) (fs : list (string * json)) :
  story_entries sl fs = story_entries sl (filter (is_key story_keys) fs).
Proof.
  revert sl. induction fs as [|[k v] fs IH]; intros sl; [reflexivity|].
  cbn [filter]. destruct (is_key story_keys (k, v)) eqn:Hk; cbn [story_entries].
  - destruct (story_entry sl k v); [apply IH|reflexivity].
  - rewrite story_entry_unknown by exact Hk. apply IH.
Qed.

(** A map entry only fills the slot its key names. *)
Lemma story_entry_frame (sl sl' : StorySlots) (k : string) (v : json) :
  story_entry sl k v = Ok sl' ->
  (k <> "id" -> s_id sl' = s_id sl) /\ (k <> "title" -> s_title sl' = s_title sl)
  /\ (k <> "description" -> s_description sl' = s_description sl)
  /\ (k <> "priority" -> s_priority sl' = s_priority sl)
  /\ (k <> "passes" -> s_passes sl' = s_passes sl)
  /\ (k <> "acceptance_criteria" -> s_criteria sl' = s_criteria sl).
Proof.
  destruct sl as [i t d p pa c]. unfold story_entry.
  destruct (String.eqb_spec k "id") as [->|N1];
    [destruct (set_slot _ _ _ _); intros H; inversion H; subst; simpl;
     repeat split; intros; try reflexivity; congruence|].
  destruct (String.eqb_spec k "title") as [->|N2];
    [destruct (set_slot _ _ _ _); intros H; inversion H; subst; simpl;
     repeat split; intros; try reflexivity; congruence|].
  destruct (String.eqb_spec k "description") as [->|N3];
    [destruct (set_slot _ _ _ _); intros H; inversion H; subst; simpl;
     repeat split; intros; try reflexivity; congruence|].
  destruct (String.eqb_spec k "priority") as [->|N4];
    [destruct (set_slot _ _ _ _); intros H; inversion H; subst; simpl;
     repeat split; intros; try reflexivity; congruence|].
  destruct (String.eqb_spec k "passes") as [->|N5];
    [destruct (set_slot _ _ _ _); intros H; inversion H; subst; simpl;
     repeat split; intros; try reflexivity; congruence|].
  destruct (String.eqb_spec k "acceptance_criteria") as [->|N6];
    [destruct (set_slot _ _ _ _); intros H; inversion H; subst; simpl;
     repeat split; intros; try reflexivity; congruence|].
  intros H. inversion H. subst. simpl. repeat split.
Qed.

Lemma story_entries_frame (sl sl' : StorySlots) (fs : list (string * json)) :
  story_entries sl fs = Ok sl' ->
  (~ In "id" (map fst fs) -> s_id sl' = s_id sl)
  /\ (~ In "title" (map fst fs) -> s_title sl' = s_title sl)
  /\ (~ In "description" (map fst fs) -> s_description sl' = s_description sl)
  /\ (~ In "priority" (map fst fs) -> s_priority sl' = s_priority sl)
  /\ (~ In "passes" (map fst fs) -> s_passes sl' = s_passes sl)
  /\ (~ In "acceptance_criteria" (map fst fs) -> s_criteria sl' = s_criteria sl).
Proof.
  revert sl. induction fs as [|[k v] fs IH]; intros sl; cbn [story_entries].
  - intros H. inversion H. subst. repeat split.
  - destruct (story_entry sl k v) as [sl1|e] eqn:E; [|discriminate]. intros H.
    destruct (IH sl1 H) as (A1 & A2 & A3 & A4 & A5 & A6).
    destruct (story_entry_frame sl sl1 k v E) as (B1 & B2 & B3 & B4 & B5 & B6).
    simpl. repeat split; intros Hn;
      (rewrite A1 || rewrite A2 || rewrite A3 || rewrite A4 || rewrite A5 || rewrite A6);
      try (intro; apply Hn; right; assumption);
      (apply B1 || apply B2 || apply B3 || apply B4 || apply B5 || apply B6);
      intro; apply Hn; left; congruence.
Qed.

Lemma prd_entries_unknown (b : option string) (ss : option (list Story))
    (fs : list (string * json)) :
  prd_entries b ss fs = prd_entries b ss (filter (is_key prd_keys) fs).
Proof.
  revert b ss. induction fs as [|[k v] fs IH]; intros b ss; [reflexivity|].
  cbn [filter]. unfold is_key at 1. cbn [fst existsb prd_keys].
  destruct (String.eqb k "branchName") eqn:E1; cbn [orb prd_entries]; rewrite E1.
  - destruct (set_slot _ _ _ _); [apply IH|reflexivity].
  - destruct (String.eqb k "stories") eqn:E2; cbn [orb prd_entries]; rewrite ?E1, ?E2.
    + destruct (set_slot _ _ _ _); [apply IH|reflexivity].
    + apply IH.
Qed.

Lemma prd_entries_frame (b : option string) (ss : option (list Story))
    (fs : list (string * json)) b' ss' :
  prd_entries b ss fs = Ok (b', ss') ->
  (~ In "branchName" (map fst fs) -> b' = b) /\ (~ In "stories" (map fst fs) -> ss' = ss).
Proof.
  revert b ss. induction fs as [|[k v] fs IH]; intros b ss; cbn [prd_entries].
  - intros H. inversion H. subst. auto.
  - destruct (String.eqb_spec k "branchName") as [->|N1].
    + destruct (set_slot _ _ _ _) as [b1|e]; [|discriminate]. intros H.
      destruct (IH _ _ H) as [_ A2]. split; intros Hn.
      * exfalso. apply Hn. left. reflexivity.
      * apply A2. intro; apply Hn; right; assumption.
    + destruct (String.eqb_spec k "stories") as [->|N2].
      * destruct (set_slot _ _ _ _) as [s1|e]; [|discriminate]. intros H.
        destruct (IH _ _ H) as [A1 _]. split; intros Hn.
        -- apply A1. intro; apply Hn; right; assumption.
        -- exfalso. apply Hn. left. reflexivity.
      * intros H. destruct (IH _ _ H) as [A1 A2].
        split; intros Hn; [apply A1|apply A2]; intro; apply Hn; right; assumption.
Qed.

Lemma de_seq_strings (l : list string) :
  de_seq de_string (JArray (map JString l)) = Ok l.
Proof.
  unfold de_seq. induction l as [|x l IH]; simpl; [reflexivity|]. now rewrite IH.
Qed.

Lemma de_ser_story (s : Story) :
  in_i32 (priority s) = true -> de_story (ser_story s) = Ok s.
Proof.
  intros Hp. destruct s as [i t d p pa c]. simpl in Hp.
  unfold de_story, ser_story, story_of_fields. cbn -[de_seq in_i32].
  rewrite Hp. cbn -[de_seq]. rewrite de_seq_strings. reflexivity.
Qed.

Lemma de_vec_stories (ss : list Story) :
  Forall (fun s => in_i32 (priority s) = true) ss ->
  de_vec de_story (map ser_story ss) = Ok ss.
Proof.
  induction 1 as [|s ss Hs _ IH]; cbn [map de_vec]; [reflexivity|].
  rewrite de_ser_story by exact Hs. now rewrite IH.
Qed.

(** C5 counterexample: unknown keys, at the top and inside a story, do not
    make parsing fail. *)
Lemma unknown_fields_ignored_example :
  de_prd doc_with_unknown_keys
  = Ok (mkPrd "feature/x" [mkStory "S-1" "t" "d" 0 false []]).
Proof. vm_compute. reflexivity. Qed.

(** C5 (as amended): keys naming no field are ignored (the result is the
    one without them); a missing [id], [title], [description], [branchName]
    or [stories] makes parsing fail; an absent [priority] is 0, an absent
    [passes] is false and an absent [acceptance_criteria] is empty, and a
    document holding a story with the priority or criteria default is then
    rejected by [validate_prd]. *)
Theorem document_parsing_fields :
  (forall fs, story_of_fields fs = story_of_fields (filter (is_key story_keys) fs))
  /\ (forall fs, prd_of_fields fs = prd_of_fields (filter (is_key prd_keys) fs))
  /\ (forall fs k, In k ["id"; "title"; "description"] -> ~ In k (map fst fs) ->
        is_ok (story_of_fields fs) = false)
  /\ (forall fs k, In k ["branchName"; "stories"] -> ~ In k (map fst fs) ->
        is_ok (prd_of_fields fs) = false)
  /\ (forall fs s, story_of_fields fs = Ok s ->
        (~ In "priority" (map fst fs) -> priority s = 0)
        /\ (~ In "passes" (map fst fs) -> passes s = false)
        /\ (~ In "acceptance_criteria" (map fst fs) -> acceptance_criteria s = [])
        /\ (~ In "priority" (map fst fs) \/ ~ In "acceptance_criteria" (map fst fs) ->
            forall b ss, In s ss -> is_ok (validate_prd (mkPrd b ss)) = false)).
Proof.
  split; [|split; [|split; [|split]]].
  - intros fs. unfold story_of_fields. now rewrite story_entries_unknown.
  - intros fs. unfold prd_of_fields. now rewrite prd_entries_unknown.
  - intros fs k Hk Hn. unfold story_of_fields.
    destruct (story_entries empty_slots fs) as [sl|e] eqn:E; [|reflexivity].
    destruct (story_entries_frame _ _ _ E) as (A1 & A2 & A3 & _).
    unfold finish_story.
    destruct Hk as [<-|[<-|[<-|[]]]].
    + rewrite (A1 Hn). reflexivity.
    + rewrite (A2 Hn). now destruct (s_id sl).
    + rewrite (A3 Hn). now destruct (s_id sl), (s_title sl).
  - intros fs k Hk Hn. unfold prd_of_fields.
    destruct (prd_entries None None fs) as [[b ss]|e] eqn:E; [|reflexivity].
    destruct (prd_entries_frame _ _ _ _ _ E) as [A1 A2].
    destruct Hk as [<-|[<-|[]]].
    + rewrite (A1 Hn). reflexivity.
    + rewrite (A2 Hn). now destruct b.
  - intros fs s Hs. unfold story_of_fields in Hs.
    destruct (story_entries empty_slots fs) as [sl|e] eqn:E; [|discriminate].
    destruct (story_entries_frame _ _ _ E) as (_ & _ & _ & A4 & A5 & A6).
    unfold finish_story in Hs.
    destruct (s_id sl), (s_title sl), (s_description sl); try discriminate.
    injection Hs as <-. cbn [priority passes acceptance_criteria].
    split; [intros Hn; now rewrite (A4 Hn)|].
    split; [intros Hn; now rewrite (A5 Hn)|].
    split; [intros Hn; now rewrite (A6 Hn)|].
    intros Hn b ss Hin.
    destruct (validate_prd (mkPrd b ss)) as [[]|e] eqn:V; [|reflexivity].
    apply ValidationFacts.validate_prd_ok in V as (_ & _ & Hall & _).
    destruct (Hall _ Hin) as (_ & _ & _ & Hlt & Hne). cbn [priority acceptance_criteria] in Hlt, Hne.
    destruct Hn as [Hn|Hn].
    + rewrite (A4 Hn) in Hlt. simpl in Hlt. lia.
    + rewrite (A6 Hn) in Hne. contradiction.
Qed.

(** C6: the derived [Deserialize] reads back what the derived [Serialize]
    writes: every field value and the order of [stories] are preserved.
    (Every [Prd] value has its priorities in the [i32] range; serde_json's
    text layer writes and reads JSON values unchanged.) *)
Theorem prd_roundtrip (p : Prd)
    (Hp : Forall (fun s => in_i32 (priority s) = true) (stories p)) :
  de_prd (ser_prd p) = Ok p.
Proof.
  destruct p as [b ss]. simpl in Hp.
  unfold de_prd, ser_prd, prd_of_fields. cbn -[de_seq].
  unfold de_seq. rewrite (de_vec_stories ss Hp). reflexivity.
Qed.

Lemma prd_roundtrip_witness :
  Forall (fun s => in_i32 (priority s) = true) (stories sample_prd)
  /\ de_prd (ser_prd sample_prd) = Ok sample_prd.
Proof.
  assert (H : Forall (fun s => in_i32 (priority s) = true) (stories sample_prd))
    by (repeat constructor).
  split; [exact H|]. exact (prd_roundtrip sample_prd H).
Defined.

End SerdeFacts.

(** ** The session driver *)
Module DriverFacts.
Import Amp.
Local Open Scope list_scope.

Lemma str_app_nil_r (s : string) : (s ++ EmptyString)%string = s.
Proof. induction s as [|c s IH]; simpl; [reflexivity|now rewrite IH]. Qed.

Lemma push_texts_app (out : string) (cs : list AssistantContent) :
  push_texts out cs = (out ++ push_texts EmptyString cs)%string.
Proof.
  revert out. induction cs as [|[t|n] cs IH]; intros out; simpl.
  - now rewrite str_app_nil_r.
  - rewrite IH, (IH t). now rewrite ExtractorFacts.string_app_assoc.
  - apply IH.
Qed.

Lemma drive_no_completed (out : string) (items : list StreamItem) :
  (forall it, In it items -> is_completed it = false) ->
  drive out items = Ok (out ++ stream_text items)%string.
Proof.
  revert out. induction items as [|it items IH]; intros out H; simpl.
  - now rewrite str_app_nil_r.
  - assert (Hr : forall x, In x items -> is_completed x = false) by (intros; apply H; now right).
    specialize (H it (or_introl eq_refl)).
    destruct it as [[sid|cs|d n e err|raw]|e]; simpl in H; try discriminate;
      rewrite IH by exact Hr; try reflexivity.
    rewrite push_texts_app. now rewrite ExtractorFacts.string_app_assoc.
Qed.

Lemma drive_error_completed (out : string) (pre post : list StreamItem) d n err :
  (forall it, In it pre -> is_error_completed it = false) ->
  drive out (pre ++ Msg (Result d n true err) :: post)
  = Err ("Amp error: " ++ unwrap_or_default err)%string.
Proof.
  revert out. induction pre as [|it pre IH]; intros out H; simpl; [reflexivity|].
  assert (Hr : forall x, In x pre -> is_error_completed x = false) by (intros; apply H; now right).
  specialize (H it (or_introl eq_refl)).
  destruct it as [[sid|cs|d' n' [|] err'|raw]|e]; simpl in H; try discriminate; apply IH, Hr.
Qed.

(** C7: once the stream delivers a [Result] event with [is_error] set (the
    first such event), the invocation fails with the event's [error] text,
    or the empty string when it has none, after the prefix ["Amp error: "];
    whatever text came before it, and whatever would follow, is dropped. *)
Theorem run_iteration_error_completed (cwd : string) (pre post : list StreamItem)
    (d n : Z) (err : option string)
    (Hpre : forall it, In it pre -> is_error_completed it = false) :
  run_iteration (Ok cwd) (pre ++ Msg (Result d n true err) :: post)
  = Err ("Amp error: " ++ unwrap_or_default err)%string.
Proof. unfold run_iteration. simpl. now apply drive_error_completed. Qed.

Lemma run_iteration_error_completed_witness :
  (forall it, In it [Msg (Assistant [Text "partial work"]); StreamErr "reset"] ->
     is_error_completed it = false)
  /\ run_iteration (Ok "/repo")
       ([Msg (Assistant [Text "partial work"]); StreamErr "reset"]
        ++ Msg (Result 10 2 true None) :: [Msg (Assistant [Text "more"])])
     = Err ("Amp error: " ++ unwrap_or_default None)%string.
Proof.
  assert (H : forall it, In it [Msg (Assistant [Text "partial work"]); StreamErr "reset"] ->
                is_error_completed it = false).
  { intros it [<-|[<-|[]]]; reflexivity. }
  split; [exact H|]. exact (run_iteration_error_completed "/repo" _ _ 10 2 None H).
Defined.

(** C8: a stream that ends without any [Result] event, transport errors
    included, makes the invocation succeed with the text of its [Text]
    contents, in order. *)
Theorem run_iteration_no_completed (cwd : string) (items : list StreamItem)
    (Hnone : forall it, In it items -> is_completed it = false) :
  run_iteration (Ok cwd) items = Ok (stream_text items).
Proof. unfold run_iteration. simpl. now rewrite drive_no_completed. Qed.

Lemma run_iteration_no_completed_witness :
  (forall it, In it [Msg (System "s1"); Msg (Assistant [Text "ab"; ToolUse "edit"; Text "c"]);
                     StreamErr "connection closed"] -> is_completed it = false)
  /\ run_iteration (Ok "/repo")
       [Msg (System "s1"); Msg (Assistant [Text "ab"; ToolUse "edit"; Text "c"]);
        StreamErr "connection closed"] = Ok "abc".
Proof.
  assert (H : forall it, In it [Msg (System "s1"); Msg (Assistant [Text "ab"; ToolUse "edit"; Text "c"]);
                     StreamErr "connection closed"] -> is_completed it = false).
  { intros it [<-|[<-|[<-|[]]]]; reflexivity. }
  split; [exact H|]. exact (run_iteration_no_completed "/repo" _ H).
Defined.

End DriverFacts.

(** ** The execute-tasks loop *)
Module LoopFacts.
Import Samples.
Import Types Amp Journal Workflows.
Local Open Scope list_scope.

Section Loop.
Context {World : Type} (E : Env World).

Lemma invocations_step (sid entry : string) (evs : list event) :
  invocations (Invoke sid :: Journaled entry :: evs) = S (invocations evs).
Proof. reflexivity. Qed.

(** One iteration on a document with a selected story: the invocation, one
    journal entry, and the rest of the loop on the world after the write. *)
Lemma run_loop_step (d : string) (after_ok : World -> result unit) (base : string)
    (n : nat) (w : World) (prd : Prd) (story : Story) (progress : string)
    (r : result string) (w1 w2 : World) :
  load_prd E w = Ok prd -> get_next_story prd = Some story ->
  load_progress_with E d w = Ok progress ->
  run_iteration_in E w (build_iteration_prompt base story progress) = (r, w1) ->
  let entry := match r with
               | Ok _ => completed_entry (now E w1) (id story)
               | Err e => failed_entry (now E w1) (id story) e
               end in
  append_progress_with E d w1 entry = Ok w2 ->
  (if is_ok r then after_ok w2 else Ok tt) = Ok tt ->
  run_loop E d after_ok base (S n) w
  = let (res, evs) := run_loop E d after_ok base n w2 in
    (res, Invoke (id story) :: Journaled entry :: evs).
Proof.
  intros Hl Hs Hp Hr entry Ha Hk. cbn [run_loop].
  rewrite Hl, Hs, Hp, Hr. fold entry. rewrite Ha, Hk. reflexivity.
Qed.

(** With every file operation succeeding and a story always selected, the
    loop runs all its iterations whatever the driver does, one invocation
    each. *)
Lemma run_loop_full (d : string) (after_ok : World -> result unit) (base : string)
    (Hprd : forall w, exists prd, load_prd E w = Ok prd /\ get_next_story prd <> None)
    (Hprog : forall w e, progress_file E w <> Some (Err e))
    (Hwrite : forall w c, exists w', write_progress E w c = Ok w')
    (Hafter : forall w, after_ok w = Ok tt) :
  forall n w, exists w' evs, run_loop E d after_ok base n w = (Ok w', evs)
                            /\ invocations evs = n.
Proof.
  induction n as [|n IH]; intros w.
  - exists w, []. split; reflexivity.
  - destruct (Hprd w) as (prd & Hl & Hn).
    destruct (get_next_story prd) as [story|] eqn:Hs; [|contradiction].
    assert (Hp : exists progress, load_progress_with E d w = Ok progress).
    { unfold load_progress_with. destruct (progress_file E w) as [[s|e]|] eqn:Hf.
      - exists s. reflexivity.
      - exfalso. exact (Hprog w e Hf).
      - exists d. reflexivity. }
    destruct Hp as [progress Hp].
    destruct (run_iteration_in E w (build_iteration_prompt base story progress))
      as [r w1] eqn:Hr.
    set (entry := match r with
                  | Ok _ => completed_entry (now E w1) (id story)
                  | Err e => failed_entry (now E w1) (id story) e
                  end).
    assert (Ha : exists w2, append_progress_with E d w1 entry = Ok w2).
    { unfold append_progress_with.
      destruct (Hwrite w1 ((match load_progress_with E d w1 with
                             | Ok s => s | Err _ => EmptyString end) ++ entry ++ NL)%string)
        as [w2 Hw].
      exists w2. rewrite Hw. reflexivity. }
    destruct Ha as [w2 Ha].
    assert (Hk : (if is_ok r then after_ok w2 else Ok tt) = Ok tt)
      by (destruct (is_ok r); [apply Hafter|reflexivity]).
    rewrite (run_loop_step d after_ok base n w prd story progress r w1 w2 Hl Hs Hp Hr Ha Hk).
    destruct (IH w2) as (w' & evs & Heq & Hc). rewrite Heq.
    exists w', (Invoke (id story) :: Journaled entry :: evs). split; [reflexivity|].
    rewrite invocations_step, Hc. reflexivity.
Qed.

(** The same loop, counting nothing: it ends in [Ok] whenever file
    operations succeed, for any driver and any documents. *)
Lemma run_loop_ok (d : string) (after_ok : World -> result unit) (base : string)
    (Hprd : forall w, exists prd, load_prd E w = Ok prd)
    (Hprog : forall w e, progress_file E w <> Some (Err e))
    (Hwrite : forall w c, exists w', write_progress E w c = Ok w')
    (Hafter : forall w, after_ok w = Ok tt) :
  forall n w, exists w' evs, run_loop E d after_ok base n w = (Ok w', evs).
Proof.
  induction n as [|n IH]; intros w.
  - exists w, []. reflexivity.
  - destruct (Hprd w) as (prd & Hl).
    destruct (get_next_story prd) as [story|] eqn:Hs.
    2:{ exists w, []. cbn [run_loop]. rewrite Hl, Hs. reflexivity. }
    assert (Hp : exists progress, load_progress_with E d w = Ok progress).
    { unfold load_progress_with. destruct (progress_file E w) as [[s|e]|] eqn:Hf.
      - exists s. reflexivity.
      - exfalso. exact (Hprog w e Hf).
      - exists d. reflexivity. }
    destruct Hp as [progress Hp].
    destruct (run_iteration_in E w (build_iteration_prompt base story progress))
      as [r w1] eqn:Hr.
    set (entry := match r with
                  | Ok _ => completed_entry (now E w1) (id story)
                  | Err e => failed_entry (now E w1) (id story) e
                  end).
    assert (Ha : exists w2, append_progress_with E d w1 entry = Ok w2).
    { unfold append_progress_with.
      destruct (Hwrite w1 ((match load_progress_with E d w1 with
                             | Ok s => s | Err _ => EmptyString end) ++ entry ++ NL)%string)
        as [w2 Hw].
      exists w2. rewrite Hw. reflexivity. }
    destruct Ha as [w2 Ha].
    assert (Hk : (if is_ok r then after_ok w2 else Ok tt) = Ok tt)
      by (destruct (is_ok r); [apply Hafter|reflexivity]).
    rewrite (run_loop_step d after_ok base n w prd story progress r w1 w2 Hl Hs Hp Hr Ha Hk).
    destruct (IH w2) as (w' & evs & Heq). rewrite Heq.
    exists w', (Invoke (id story) :: Journaled entry :: evs). reflexivity.
Qed.

End Loop.

(** C3: with file operations succeeding and every document read holding a
    story with [passes = false], [run_command] with [max_iterations = N]
    invokes the Session Driver exactly [N] times and returns [Ok(())], in
    workflows.rs and in main.rs.  (The driver's outcomes do not matter: an
    always-succeeding driver is one case.) *)
Theorem run_command_exhausts_iterations {World : Type} (E : Env World)
    (N : nat) (w0 : World)
    (Hprompt : forall w, exists bp, prompt_file E w = Ok bp)
    (Hprd : forall w, exists prd, load_prd E w = Ok prd /\ get_next_story prd <> None)
    (Hprog : forall w e, progress_file E w <> Some (Err e))
    (Hwrite : forall w c, exists w', write_progress E w c = Ok w') :
  (exists evs, run_command E N w0 = (Ok tt, evs) /\ invocations evs = N)
  /\ (exists evs, run_command_main E N w0 = (Ok tt, evs) /\ invocations evs = N).
Proof.
  assert (Hafter : forall w, (let? _ := load_prd E w in Ok tt) = Ok tt).
  { intros w. destruct (Hprd w) as (prd & Hl & _). rewrite Hl. reflexivity. }
  split.
  - unfold run_command.
    assert (Hp : exists bp, load_prompt E w0 = Ok bp).
    { unfold load_prompt. destruct (custom_prompt E); [apply Hprompt|eexists; reflexivity]. }
    destruct Hp as [bp Hp]. rewrite Hp.
    destruct (Hprd w0) as (prd0 & Hl0 & _). rewrite Hl0.
    destruct (run_loop_full E (DEFAULT_PROGRESS_TEMPLATE E)
                (fun w2 => let? _ := load_prd E w2 in Ok tt) bp Hprd Hprog Hwrite Hafter N w0)
      as (w' & evs & Heq & Hc).
    rewrite Heq. destruct (Hprd w') as (prd' & Hl' & _). rewrite Hl'.
    exists evs. split; [reflexivity|exact Hc].
  - unfold run_command_main.
    destruct (Hprompt w0) as [bp Hp]. rewrite Hp.
    destruct (run_loop_full E EmptyString (fun _ => Ok tt) bp Hprd Hprog Hwrite
                (fun _ => eq_refl) N w0) as (w' & evs & Heq & Hc).
    rewrite Heq. exists evs. split; [reflexivity|exact Hc].
Qed.

Example sample_run :
  invocations (snd (run_command sample_env 3%nat 0%nat)) = 3%nat
  /\ fst (run_command sample_env 3%nat 0%nat) = Ok tt.
Proof. split; vm_compute; reflexivity. Qed.

Lemma run_command_exhausts_iterations_witness :
  (exists evs, run_command sample_env 3%nat 0%nat = (Ok tt, evs) /\ invocations evs = 3%nat)
  /\ (exists evs, run_command_main sample_env 3%nat 0%nat = (Ok tt, evs) /\ invocations evs = 3%nat).
Proof.
  apply (run_command_exhausts_iterations sample_env 3%nat 0%nat).
  - intros w. eexists. reflexivity.
  - intros w. eexists. split; [reflexivity|]. vm_compute. discriminate.
  - intros w e H. vm_compute in H. discriminate H.
  - intros w c. eexists. reflexivity.
Defined.

(** C9: an iteration whose invocation fails appends exactly one journal
    entry, [\n## [ts] Failed: <id>\nError: <reason>\n], and goes on with the
    remaining iterations; and whatever the driver does, [run_command]
    (workflows.rs and main.rs) returns [Ok(())] when the file operations
    succeed: only those can make it fail. *)
Theorem driver_failure_not_fatal {World : Type} (E : Env World) :
  (forall d after_ok base n w prd story progress e w1 w2,
     load_prd E w = Ok prd -> get_next_story prd = Some story ->
     load_progress_with E d w = Ok progress ->
     run_iteration_in E w (build_iteration_prompt base story progress) = (Err e, w1) ->
     append_progress_with E d w1 (failed_entry (now E w1) (id story) e) = Ok w2 ->
     run_loop E d after_ok base (S n) w
     = let (res, evs) := run_loop E d after_ok base n w2 in
       (res, Invoke (id story) :: Journaled (failed_entry (now E w1) (id story) e) :: evs))
  /\ (forall N w0,
       (forall w, exists bp, prompt_file E w = Ok bp) ->
       (forall w, exists prd, load_prd E w = Ok prd) ->
       (forall w e, progress_file E w <> Some (Err e)) ->
       (forall w c, exists w', write_progress E w c = Ok w') ->
       fst (run_command E N w0) = Ok tt /\ fst (run_command_main E N w0) = Ok tt).
Proof.
  split.
  - intros d after_ok base n w prd story progress e w1 w2 Hl Hs Hp Hr Ha.
    exact (run_loop_step E d after_ok base n w prd story progress (Err e) w1 w2
             Hl Hs Hp Hr Ha eq_refl).
  - intros N w0 Hprompt Hprd Hprog Hwrite.
    assert (Hafter : forall w, (let? _ := load_prd E w in Ok tt) = Ok tt).
    { intros w. destruct (Hprd w) as (prd & Hl). rewrite Hl. reflexivity. }
    split.
    + unfold run_command.
      assert (Hp : exists bp, load_prompt E w0 = Ok bp).
      { unfold load_prompt. destruct (custom_prompt E); [apply Hprompt|eexists; reflexivity]. }
      destruct Hp as [bp Hp]. rewrite Hp.
      destruct (Hprd w0) as (prd0 & Hl0). rewrite Hl0.
      destruct (run_loop_ok E (DEFAULT_PROGRESS_TEMPLATE E)
                  (fun w2 => let? _ := load_prd E w2 in Ok tt) bp Hprd Hprog Hwrite Hafter N w0)
        as (w' & evs & Heq).
      rewrite Heq. destruct (Hprd w') as (prd' & Hl'). rewrite Hl'. reflexivity.
    + unfold run_command_main.
      destruct (Hprompt w0) as [bp Hp]. rewrite Hp.
      destruct (run_loop_ok E EmptyString (fun _ => Ok tt) bp Hprd Hprog Hwrite
                  (fun _ => eq_refl) N w0) as (w' & evs & Heq).
      rewrite Heq. reflexivity.
Qed.

End LoopFacts.

(** * Further properties *)

(** ** The planning and extraction prompts *)
Module TemplateFacts.
Import Journal Templates.

(** X1: [build_planning_prompt] puts the initial context in place of the
    single [{initial_context}] of the template and changes nothing else:
    with no description the placeholder just disappears, and a description
    is inserted verbatim, even when it contains the placeholder itself. *)
Theorem build_planning_prompt_inserts_once :
  exists pre post,
    PLANNING_PROMPT_TEMPLATE = pre ++ "{initial_context}" ++ post
    /\ forall d, build_planning_prompt d = pre ++ initial_context d ++ post.
Proof.
  exists (substring 0 1209 PLANNING_PROMPT_TEMPLATE),
         (substring 1226 54 PLANNING_PROMPT_TEMPLATE).
  split; [vm_compute; reflexivity|].
  intros d. unfold build_planning_prompt.
  generalize (initial_context d) as ctx. intros ctx.
  vm_compute. reflexivity.
Qed.

(** X2: [build_extraction_prompt] appends the conversation verbatim to the
    part of [EXTRACTION_PROMPT] before its final [{conversation_history}],
    whatever the conversation contains; that part keeps the doubled
    braces [{{] and [}}] of the raw string. *)
Theorem build_extraction_prompt_appends :
  exists pre,
    EXTRACTION_PROMPT = pre ++ "{conversation_history}"
    /\ (forall h, build_extraction_prompt h = pre ++ h)
    /\ String.index 0 "{{" pre <> None /\ String.index 0 "}}" pre <> None.
Proof.
  exists (substring 0 1017 EXTRACTION_PROMPT).
  split; [vm_compute; reflexivity|].
  split; [|split; vm_compute; discriminate].
  intros h. unfold build_extraction_prompt. vm_compute.
  rewrite DriverFacts.str_app_nil_r. reflexivity.
Qed.

End TemplateFacts.

(** ** The planning command *)
Module PlanFacts.
Import Types Prompts Serde Amp Journal Workflows Templates Plan.

Lemma char_to_lowercase_y (c : ascii) :
  char_to_lowercase c = "y"%char <-> c = "y"%char \/ c = "Y"%char.
Proof.
  destruct c as [b0 b1 b2 b3 b4 b5 b6 b7].
  destruct b0, b1, b2, b3, b4, b5, b6, b7; vm_compute;
    split; intros H; try (destruct H as [H|H]); try discriminate H; auto.
Qed.

Lemma to_lowercase_y (s : string) :
  to_lowercase s = "y" <-> s = "y" \/ s = "Y".
Proof.
  destruct s as [|c r]; simpl.
  - split; [discriminate|intros [H|H]; discriminate H].
  - split.
    + intros H. injection H as Hc Hr.
      destruct r; [|discriminate Hr].
      apply char_to_lowercase_y in Hc as [->| ->]; auto.
    + intros [H|H]; injection H as -> ->; reflexivity.
Qed.

(** X3: the confirmation reads as yes exactly when the line, with its
    surrounding whitespace (the line ending included) removed, is [y] or
    [Y]; [yes], [n] or an empty line save nothing. *)
Theorem answer_is_yes_iff (input : string) :
  answer_is_yes input = true <-> trim input = "y" \/ trim input = "Y".
Proof. unfold answer_is_yes. rewrite String.eqb_eq. apply to_lowercase_y. Qed.

(** The priorities a parsed document carries are [i32]s. *)
Lemma de_vec_forall {A} (de : json -> result A) (P : A -> Prop) (l : list json) (xs : list A) :
  (forall v x, de v = Ok x -> P x) -> de_vec de l = Ok xs -> Forall P xs.
Proof.
  intros Hde. revert xs. induction l as [|v l IH]; intros xs H; simpl in H.
  - injection H as <-. constructor.
  - destruct (de v) as [a|e] eqn:Hv; [|discriminate].
    destruct (de_vec de l) as [ys|e] eqn:Hl; [|discriminate].
    injection H as <-. constructor; [exact (Hde _ _ Hv)|exact (IH _ eq_refl)].
Qed.

Definition prio_ok (sl : StorySlots) : Prop :=
  forall p, s_priority sl = Some p -> in_i32 p = true.

Lemma story_entry_prio (sl sl' : StorySlots) (k : string) (v : json) :
  prio_ok sl -> story_entry sl k v = Ok sl' -> prio_ok sl'.
Proof.
  destruct sl as [i t d p pa c]. unfold prio_ok, story_entry. cbn [s_priority].
  intros Hp H.
  destruct (String.eqb k "id"); [destruct (set_slot _ _ _ _); [injection H as <-; exact Hp|discriminate]|].
  destruct (String.eqb k "title"); [destruct (set_slot _ _ _ _); [injection H as <-; exact Hp|discriminate]|].
  destruct (String.eqb k "description"); [destruct (set_slot _ _ _ _); [injection H as <-; exact Hp|discriminate]|].
  destruct (String.eqb k "priority").
  { unfold set_slot in H. destruct p; [discriminate|].
    unfold de_i32 in H. destruct v; try discriminate.
    destruct (in_i32 z) eqn:Hz; [|discriminate].
    injection H as <-. cbn. intros q Hq. injection Hq as <-. exact Hz. }
  destruct (String.eqb k "passes"); [destruct (set_slot _ _ _ _); [injection H as <-; exact Hp|discriminate]|].
  destruct (String.eqb k "acceptance_criteria"); [destruct (set_slot _ _ _ _); [injection H as <-; exact Hp|discriminate]|].
  injection H as <-. exact Hp.
Qed.

Lemma story_entries_prio (fs : list (string * json)) (sl sl' : StorySlots) :
  prio_ok sl -> story_entries sl fs = Ok sl' -> prio_ok sl'.
Proof.
  revert sl. induction fs as [|[k v] fs IH]; intros sl Hp H; simpl in H.
  - injection H as <-. exact Hp.
  - destruct (story_entry sl k v) as [sl1|e] eqn:He; [|discriminate].
    exact (IH sl1 (story_entry_prio _ _ _ _ Hp He) H).
Qed.

Lemma de_story_prio (v : json) (s : Story) :
  de_story v = Ok s -> in_i32 (priority s) = true.
Proof.
  destruct v as [| | | |l|fs]; simpl; try discriminate.
  - unfold story_of_seq, next_required, next_default.
    destruct l as [|v1 l]; [discriminate|]. destruct (de_string v1); [|discriminate]. cbn.
    destruct l as [|v2 l]; [discriminate|]. destruct (de_string v2); [|discriminate]. cbn.
    destruct l as [|v3 l]; [discriminate|]. destruct (de_string v3); [|discriminate]. cbn.
    destruct l as [|v4 l]; [intros H; injection H as <-; reflexivity|].
    destruct (de_i32 v4) as [p|e] eqn:Hp; [|discriminate]. cbn.
    assert (Hin : in_i32 p = true).
    { unfold de_i32 in Hp. destruct v4; try discriminate.
      destruct (in_i32 z) eqn:Hz; [|discriminate]. injection Hp as <-. exact Hz. }
    destruct l as [|v5 l]; [intros H; injection H as <-; exact Hin|].
    destruct (de_bool v5); [|discriminate]. cbn.
    destruct l as [|v6 l]; [intros H; injection H as <-; exact Hin|].
    destruct (de_seq de_string v6); [|discriminate]. cbn.
    destruct l; [intros H; injection H as <-; exact Hin|discriminate].
  - unfold story_of_fields.
    destruct (story_entries empty_slots fs) as [sl|e] eqn:He; [|discriminate].
    assert (Hp : prio_ok sl) by (apply (story_entries_prio fs empty_slots); [intros p Hp; discriminate|exact He]).
    unfold finish_story.
    destruct (s_id sl), (s_title sl), (s_description sl); try discriminate.
    intros H. injection H as <-. cbn [priority].
    destruct (s_priority sl) as [p|] eqn:Hq; [exact (Hp p Hq)|reflexivity].
Qed.

Lemma prd_entries_prio (fs : list (string * json)) (b b' : option string)
    (ss ss' : option (list Story)) :
  (forall l, ss = Some l -> Forall (fun s => in_i32 (priority s) = true) l) ->
  prd_entries b ss fs = Ok (b', ss') ->
  forall l, ss' = Some l -> Forall (fun s => in_i32 (priority s) = true) l.
Proof.
  revert b ss. induction fs as [|[k v] fs IH]; intros b ss Hss H; simpl in H.
  - injection H as <- <-. exact Hss.
  - destruct (String.eqb k "branchName").
    { destruct (set_slot "branchName" de_string b v) as [b1|e]; [|discriminate].
      exact (IH _ _ Hss H). }
    destruct (String.eqb k "stories").
    { unfold set_slot in H. destruct ss; [discriminate|].
      destruct (de_seq de_story v) as [l1|e] eqn:Hv; [|discriminate].
      apply (IH b (Some l1)); [|exact H].
      intros l Hl. injection Hl as <-.
      unfold de_seq in Hv. destruct v; try discriminate.
      exact (de_vec_forall de_story _ _ _ de_story_prio Hv). }
    exact (IH _ _ Hss H).
Qed.

Lemma de_prd_prio (v : json) (p : Prd) :
  de_prd v = Ok p -> Forall (fun s => in_i32 (priority s) = true) (stories p).
Proof.
  destruct v as [| | | |l|fs]; simpl; try discriminate.
  - unfold prd_of_seq.
    destruct l as [|vb [|vs [|? ?]]]; try discriminate.
    destruct (de_string vb); [|discriminate].
    destruct (de_seq de_story vs) as [ss|e] eqn:Hv; [|discriminate].
    intros H. injection H as <-. cbn [stories].
    unfold de_seq in Hv. destruct vs; try discriminate.
    exact (de_vec_forall de_story _ _ _ de_story_prio Hv).
  - unfold prd_of_fields.
    destruct (prd_entries None None fs) as [[b ss]|e] eqn:He; [|discriminate].
    destruct b; [|discriminate]. destruct ss as [ss|]; [|discriminate].
    intros H. injection H as <-. cbn [stories].
    exact (prd_entries_prio fs None _ None _ (fun l H => ltac:(discriminate H)) He ss eq_refl).
Qed.

(** [de_prd] reads back [ser_prd] on [i32] priorities. *)
Lemma de_ser_prd (p : Prd) :
  Forall (fun s => in_i32 (priority s) = true) (stories p) -> de_prd (ser_prd p) = Ok p.
Proof.
  destruct p as [b ss]. simpl. intros Hp.
  unfold de_prd, ser_prd, prd_of_fields. cbn -[de_seq].
  unfold de_seq. rewrite (SerdeFacts.de_vec_stories ss Hp). reflexivity.
Qed.

(** What a planning run that writes the output file went through. *)
Lemma plan_saved {World} (P : PlanEnv World) (w : World) (d : option string)
    (force : bool) (o : plan_end World) (tr : list plan_event) (t : string) :
  run_plan_command P w d force = (o, tr) -> In (Saved t) tr ->
  (output_exists P w = false \/ force = true)
  /\ exists conversation w1 response cleaned prd w2 input w3,
       tr = [Asked (build_planning_prompt d); Asked (build_extraction_prompt conversation);
             Saved t]
       /\ fst (run_iteration_in (run_env P) w (build_planning_prompt d)) = Ok conversation
       /\ run_iteration_in (run_env P) w1 (build_extraction_prompt conversation)
          = (Ok response, w2)
       /\ clean_json_response response = Returns (Ok cleaned)
       /\ (let? v := json_of_text (run_env P) cleaned in de_prd v) = Ok prd
       /\ validate_prd prd = Ok tt
       /\ read_line P w2 = (Ok input, w3)
       /\ answer_is_yes input = true
       /\ t = text_of_json P (ser_prd prd).
Proof.
  unfold run_plan_command. cbv zeta.
  destruct (check_output_file (output_exists P w) force) as [[]|e] eqn:Hc;
    [|intros H; injection H as <- <-; intros []].
  assert (Hf : output_exists P w = false \/ force = true).
  { unfold check_output_file in Hc. destruct (output_exists P w), force; auto; discriminate. }
  destruct (run_iteration_in (run_env P) w (build_planning_prompt d)) as [r1 w1] eqn:H1.
  destruct r1 as [conversation|e];
    [|intros H; injection H as <- <-; intros [H|[]]; discriminate H].
  destruct (run_iteration_in (run_env P) w1 (build_extraction_prompt conversation))
    as [r2 w2] eqn:H2.
  destruct r2 as [response|e];
    [|intros H; injection H as <- <-; intros [H|[H|[]]]; discriminate H].
  destruct (clean_json_response response) as [[cleaned|e]|] eqn:Hcl;
    try (intros H; injection H as <- <-; intros [H|[H|[]]]; discriminate H).
  destruct (let? v := json_of_text (run_env P) cleaned in de_prd v) as [prd|e] eqn:Hp;
    [|intros H; injection H as <- <-; intros [H|[H|[]]]; discriminate H].
  destruct (validate_prd prd) as [[]|e] eqn:Hv;
    [|intros H; injection H as <- <-; intros [H|[H|[]]]; discriminate H].
  destruct (flush_stdout P w2) as [[]|e];
    [|intros H; injection H as <- <-; intros [H|[H|[]]]; discriminate H].
  destruct (read_line P w2) as [r3 w3] eqn:H3.
  destruct r3 as [input|e];
    [|intros H; injection H as <- <-; intros [H|[H|[]]]; discriminate H].
  destruct (answer_is_yes input) eqn:Hy;
    [|intros H; injection H as <- <-; intros [H|[H|[]]]; discriminate H].
  cbn [negb].
  intros H Hin.
  assert (Htr : tr = [Asked (build_planning_prompt d); Asked (build_extraction_prompt conversation);
                      Saved (text_of_json P (ser_prd prd))]).
  { destruct (save_prd P w3 prd); injection H as _ <-; reflexivity. }
  rewrite Htr in Hin. destruct Hin as [Hin|[Hin|[Hin|[]]]]; try discriminate Hin.
  injection Hin as Ht.
  split; [exact Hf|].
  exists conversation, w1, response, cleaned, prd, w2, input, w3.
  rewrite <- Ht. repeat split; auto.
Qed.



(** X5: the document [run_plan_command] writes reads back as the document
    it validated: the derived [Deserialize] gives it back from the written
    JSON value, so a later [load_prd] of the file, with serde_json's text
    layer reading back what it writes, yields that validated document. *)
Theorem run_plan_command_saved_reads_back {World} (P : PlanEnv World) (w : World)
    (d : option string) (force : bool) (o : plan_end World) (tr : list plan_event)
    (t : string) :
  run_plan_command P w d force = (o, tr) -> In (Saved t) tr ->
  exists prd,
    t = text_of_json P (ser_prd prd)
    /\ de_prd (ser_prd prd) = Ok prd
    /\ validate_prd prd = Ok tt
    /\ (forall w',
          (forall v, json_of_text (run_env P) (text_of_json P v) = Ok v) ->
          prd_text (run_env P) w' = Ok t ->
          load_prd (run_env P) w' = Ok prd).
Proof.
  intros H Hin.
  destruct (plan_saved P w d force o tr t H Hin)
    as (_ & conversation & w1 & response & cleaned & prd & w2 & input & w3
        & _ & _ & _ & _ & Hp & Hv & _ & _ & Ht).
  assert (Hi : Forall (fun s => in_i32 (priority s) = true) (stories prd)).
  { destruct (json_of_text (run_env P) cleaned) as [v|e]; [|discriminate].
    exact (de_prd_prio v prd Hp). }
  assert (Hrt : de_prd (ser_prd prd) = Ok prd) by exact (de_ser_prd prd Hi).
  exists prd. split; [exact Ht|]. split; [exact Hrt|]. split; [exact Hv|].
  intros w' Htext Hread. unfold load_prd. rewrite Hread, Ht, Htext. unfold bind. cbv beta iota. rewrite Hrt.
  reflexivity.
Qed.

Lemma run_plan_command_saved_reads_back_witness :
  run_plan_command Aux.plan_env 0%nat None false
  = (PlanReturns (Ok tt) 3%nat,
     [Asked (build_planning_prompt None); Asked (build_extraction_prompt "conversation");
      Saved "pretty json"])
  /\ In (Saved "pretty json")
        [Asked (build_planning_prompt None); Asked (build_extraction_prompt "conversation");
         Saved "pretty json"]
  /\ exists prd,
       "pretty json" = text_of_json Aux.plan_env (ser_prd prd)
       /\ de_prd (ser_prd prd) = Ok prd
       /\ validate_prd prd = Ok tt
       /\ (forall w',
             (forall v, json_of_text (run_env Aux.plan_env) (text_of_json Aux.plan_env v) = Ok v) ->
             prd_text (run_env Aux.plan_env) w' = Ok "pretty json" ->
             load_prd (run_env Aux.plan_env) w' = Ok prd).
Proof.
  assert (H : run_plan_command Aux.plan_env 0%nat None false
              = (PlanReturns (Ok tt) 3%nat,
                 [Asked (build_planning_prompt None);
                  Asked (build_extraction_prompt "conversation"); Saved "pretty json"]))
    by (vm_compute; reflexivity).
  assert (Hin : In (Saved "pretty json")
                  [Asked (build_planning_prompt None);
                   Asked (build_extraction_prompt "conversation"); Saved "pretty json"])
    by (simpl; auto).
  split; [exact H|]. split; [exact Hin|].
  exact (run_plan_command_saved_reads_back Aux.plan_env 0%nat None false _ _ "pretty json" H Hin).
Defined.

End PlanFacts.

(** ** The final summary *)
Module SummaryFacts.
Import Types Prompts Workflows Summary Aux.

Lemma filter_passes_split (l : list Story) :
  (length (filter passes l) + length (filter (fun s => negb (passes s)) l))%nat = length l.
Proof. induction l as [|s l IH]; simpl; [reflexivity|]. destruct (passes s); simpl; lia. Qed.

Lemma next_story_none_iff (prd : Prd) : get_next_story prd = None <-> pending prd = 0%nat.
Proof.
  unfold get_next_story, pending. rewrite SchedulerFacts.min_by_key_none.
  rewrite length_zero_iff_nil. reflexivity.
Qed.

(** X6: [print_final_summary] never panics: the [usize] subtraction
    [total - completed] cannot underflow.  On a document it reads, it
    reports all stories completed exactly when the scheduler has no story
    left, and otherwise [completed/total] with the number of stories not
    done as [remaining]. *)
Theorem print_final_summary_consistent {World} (E : Env World) (w : World) :
  print_final_summary E w <> Panics
  /\ forall prd, load_prd E w = Ok prd ->
     exists sm, print_final_summary E w = Returns (Ok sm)
       /\ match sm with
          | AllCompleted total => total = length (stories prd) /\ get_next_story prd = None
          | SomeCompleted c total r =>
              total = length (stories prd) /\ c = length (filter passes (stories prd))
              /\ r = pending prd /\ (c + r)%nat = total /\ get_next_story prd <> None
          end.
Proof.
  split.
  - unfold print_final_summary. destruct (load_prd E w) as [prd|e]; [|discriminate].
    cbv zeta. pose proof (filter_passes_split (stories prd)) as Hs.
    rewrite (proj2 (Nat.leb_le _ _)) by lia. discriminate.
  - intros prd Hl. unfold print_final_summary. rewrite Hl. cbv zeta.
    pose proof (filter_passes_split (stories prd)) as Hs.
    rewrite (proj2 (Nat.leb_le _ _)) by lia.
    destruct (Nat.eqb_spec (length (stories prd) - length (filter passes (stories prd))) 0)
      as [Hz|Hz].
    + eexists. split; [reflexivity|]. split; [reflexivity|].
      apply next_story_none_iff. unfold pending. lia.
    + eexists. split; [reflexivity|].
      split; [reflexivity|]. split; [reflexivity|].
      split; [unfold pending; lia|]. split; [lia|].
      rewrite next_story_none_iff. unfold pending. lia.
Qed.

End SummaryFacts.

(** ** Output modes *)
Module OutputFacts.
Import Output.




End OutputFacts.

(** ** The execute-tasks loop, further *)
Module LoopInvariants.
Import Types Amp Journal Workflows Samples Aux.
Local Open Scope list_scope.


Lemma run_iteration_in_world {World : Type} (E : Env World) (w : World) (p : string) :
  snd (run_iteration_in E w p) = w \/ snd (run_iteration_in E w p) = snd (session E w p).
Proof.
  unfold run_iteration_in. destruct (canonicalize E w); [|left; reflexivity].
  destruct (session E w p); right; reflexivity.
Qed.

(** X9: when a write of progress.txt is read back as written and the agent
    leaves the file alone, a run that ends in [Ok] leaves the journal as it
    found it (or the default template, when the file was missing) followed
    by each entry of the run, in order, each with the newline
    [append_progress] pushes: nothing earlier is lost or reordered. *)
Theorem run_loop_journal_appends {World : Type} (E : Env World) (d : string)
    (after_ok : World -> result unit) (base : string)
    (Hw : forall w s w', write_progress E w s = Ok w' -> progress_file E w' = Some (Ok s))
    (Hs : forall w p, progress_file E (snd (session E w p)) = progress_file E w) :
  forall n w j0 w' evs,
    load_progress_with E d w = Ok j0 ->
    run_loop E d after_ok base n w = (Ok w', evs) ->
    load_progress_with E d w' = Ok (j0 ++ journal_text evs)%string.
Proof.
  induction n as [|n IH]; intros w j0 w' evs Hj H; cbn [run_loop] in H.
  - injection H as <- <-. cbn [journal_text]. now rewrite DriverFacts.str_app_nil_r.
  - destruct (load_prd E w) as [prd|e]; [|discriminate].
    destruct (get_next_story prd) as [story|];
      [|injection H as <- <-; cbn [journal_text]; now rewrite DriverFacts.str_app_nil_r].
    rewrite Hj in H.
    destruct (run_iteration_in E w (build_iteration_prompt base story j0)) as [r w1] eqn:Hr.
    assert (Hj1 : load_progress_with E d w1 = Ok j0).
    { rewrite <- Hj. unfold load_progress_with.
      destruct (run_iteration_in_world E w (build_iteration_prompt base story j0)) as [Hx|Hx];
        rewrite Hr in Hx; simpl in Hx; rewrite Hx; [reflexivity|now rewrite Hs]. }
    set (entry := match r with
                  | Ok _ => completed_entry (now E w1) (id story)
                  | Err e => failed_entry (now E w1) (id story) e
                  end) in H.
    destruct (append_progress_with E d w1 entry) as [w2|e] eqn:Ha; [|discriminate].
    assert (Hj2 : load_progress_with E d w2 = Ok (j0 ++ entry ++ NL)%string).
    { unfold append_progress_with in Ha. rewrite Hj1 in Ha.
      destruct (write_progress E w1 (j0 ++ entry ++ NL)%string) as [w2'|e] eqn:Hwr;
        [|discriminate].
      injection Ha as <-. unfold load_progress_with. now rewrite (Hw _ _ _ Hwr). }
    destruct (if is_ok r then after_ok w2 else Ok tt) as [[]|e]; [|discriminate].
    destruct (run_loop E d after_ok base n w2) as [res evs'] eqn:Hrec.
    injection H as -> <-.
    rewrite (IH w2 _ w' evs' Hj2 Hrec). cbn [journal_text].
    now rewrite !ExtractorFacts.string_app_assoc.
Qed.

Lemma run_loop_journal_appends_witness :
  exists w' evs,
    run_loop journal_env "t" (fun _ => Ok tt) "b" 2 "log" = (Ok w', evs)
    /\ load_progress_with journal_env "t" w' = Ok ("log" ++ journal_text evs)%string.
Proof.
  assert (Hrun : exists w' evs,
             run_loop journal_env "t" (fun _ => Ok tt) "b" 2 "log" = (Ok w', evs))
    by (do 2 eexists; reflexivity).
  destruct Hrun as (w' & evs & Hrun). exists w', evs. split; [exact Hrun|].
  apply (run_loop_journal_appends journal_env "t" (fun _ => Ok tt) "b"
           (fun w s w' H => ltac:(injection H as H; subst; reflexivity))
           (fun w p => eq_refl) 2 "log" "log"); [reflexivity|exact Hrun].
Defined.

Lemma pending_mark (prd : Prd) (pre post : list Story) (s : Story) (b : string) :
  stories prd = pre ++ s :: post -> passes s = false ->
  pending (mkPrd b (pre ++ mark_done s :: post)) = (pending prd - 1)%nat
  /\ (1 <= pending prd)%nat.
Proof.
  intros Hst Hp. unfold pending. cbn [stories]. rewrite Hst, !filter_app, !length_app.
  cbn [filter mark_done passes negb]. rewrite Hp. cbn [negb length]. lia.
Qed.

Lemma next_story_pending (prd : Prd) (s : Story) :
  get_next_story prd = Some s -> passes s = false.
Proof.
  unfold get_next_story. intros H.
  destruct (SchedulerFacts.min_by_key_some priority _ s H) as (pre & post & Hl & _).
  assert (Hin : In s (filter (fun s => negb (passes s)) (stories prd)))
    by (rewrite Hl; apply in_or_app; right; left; reflexivity).
  apply filter_In in Hin as [_ Hn]. now destruct (passes s).
Qed.

Section Marking.
Context {World : Type} (E : Env World).

(** The loop when every session marks the selected story done. *)
Lemma run_loop_marking (d : string) (after_ok : World -> result unit) (base : string)
    (Hprog : forall w e, progress_file E w <> Some (Err e))
    (Hwrite : forall w c, exists w', write_progress E w c = Ok w')
    (Hkeep : forall w c w', write_progress E w c = Ok w' -> load_prd E w' = load_prd E w)
    (Hafter : forall w prd, load_prd E w = Ok prd -> after_ok w = Ok tt)
    (Hagent : forall w prompt prd s, load_prd E w = Ok prd -> get_next_story prd = Some s ->
       exists pre post, stories prd = pre ++ s :: post
         /\ load_prd E (snd (run_iteration_in E w prompt))
            = Ok (mkPrd (branch_name prd) (pre ++ mark_done s :: post))) :
  forall n w prd, load_prd E w = Ok prd ->
    exists w' evs prd', run_loop E d after_ok base n w = (Ok w', evs)
      /\ invocations evs = Nat.min n (pending prd)
      /\ load_prd E w' = Ok prd'
      /\ pending prd' = (pending prd - Nat.min n (pending prd))%nat.
Proof.
  induction n as [|n IH]; intros w prd Hl.
  - exists w, [], prd. split; [reflexivity|]. simpl. split; [reflexivity|]. split; [exact Hl|lia].
  - destruct (get_next_story prd) as [story|] eqn:Hs.
    2:{ exists w, [], prd. split; [cbn [run_loop]; rewrite Hl, Hs; reflexivity|].
        apply SummaryFacts.next_story_none_iff in Hs. rewrite Hs.
        split; [reflexivity|]. split; [exact Hl|lia]. }
    assert (Hp : exists progress, load_progress_with E d w = Ok progress).
    { unfold load_progress_with. destruct (progress_file E w) as [[s|e]|] eqn:Hf.
      - exists s. reflexivity.
      - exfalso. exact (Hprog w e Hf).
      - exists d. reflexivity. }
    destruct Hp as [progress Hp].
    destruct (Hagent w (build_iteration_prompt base story progress) prd story Hl Hs)
      as (pre & post & Hst & Hl1).
    destruct (run_iteration_in E w (build_iteration_prompt base story progress))
      as [r w1] eqn:Hr.
    simpl in Hl1.
    destruct (pending_mark prd pre post story (branch_name prd) Hst (next_story_pending prd story Hs))
      as [Hpm Hge].
    set (entry := match r with
                  | Ok _ => completed_entry (now E w1) (id story)
                  | Err e => failed_entry (now E w1) (id story) e
                  end).
    set (content := ((match load_progress_with E d w1 with
                      | Ok s => s | Err _ => EmptyString end) ++ entry ++ NL)%string).
    destruct (Hwrite w1 content) as [w2 Hw2].
    assert (Ha : append_progress_with E d w1 entry = Ok w2).
    { unfold append_progress_with. fold content. rewrite Hw2. reflexivity. }
    assert (Hl2 : load_prd E w2 = Ok (mkPrd (branch_name prd) (pre ++ mark_done story :: post)))
      by (rewrite (Hkeep _ _ _ Hw2); exact Hl1).
    assert (Hk : (if is_ok r then after_ok w2 else Ok tt) = Ok tt)
      by (destruct (is_ok r); [exact (Hafter _ _ Hl2)|reflexivity]).
    rewrite (LoopFacts.run_loop_step E d after_ok base n w prd story progress r w1 w2
               Hl Hs Hp Hr Ha Hk).
    destruct (IH w2 _ Hl2) as (w' & evs & prd' & Heq & Hc & Hl' & Hpend).
    rewrite Heq. exists w', (Invoke (id story) :: Journaled entry :: evs), prd'.
    split; [reflexivity|]. rewrite LoopFacts.invocations_step, Hc.
    rewrite Hpm in Hc, Hpend |- *. split; [lia|]. split; [exact Hl'|lia].
Qed.

End Marking.

(** X10: when every session marks the story it was given as done (setting
    its [passes], nothing else changing in prd.json) and the file
    operations succeed, [run_command] (workflows.rs and main.rs) invokes the
    Session Driver [min(N, pending)] times, [pending] being the number of
    stories not done at the start, and ends with that many fewer stories
    left: every pending story is worked on once when [N] suffices. *)
Theorem run_command_completes_pending {World : Type} (E : Env World) (N : nat)
    (w0 : World) (prd0 : Prd)
    (Hprompt : forall w, exists bp, prompt_file E w = Ok bp)
    (Hprd0 : load_prd E w0 = Ok prd0)
    (Hprog : forall w e, progress_file E w <> Some (Err e))
    (Hwrite : forall w c, exists w', write_progress E w c = Ok w')
    (Hkeep : forall w c w', write_progress E w c = Ok w' -> load_prd E w' = load_prd E w)
    (Hagent : forall w prompt prd s, load_prd E w = Ok prd -> get_next_story prd = Some s ->
       exists pre post, stories prd = pre ++ s :: post
         /\ load_prd E (snd (run_iteration_in E w prompt))
            = Ok (mkPrd (branch_name prd) (pre ++ mark_done s :: post))) :
  (exists evs, run_command E N w0 = (Ok tt, evs)
               /\ invocations evs = Nat.min N (pending prd0))
  /\ (exists evs, run_command_main E N w0 = (Ok tt, evs)
                  /\ invocations evs = Nat.min N (pending prd0))
  /\ (forall base, exists w' evs prd',
        run_loop E (DEFAULT_PROGRESS_TEMPLATE E) (fun w2 => let? _ := load_prd E w2 in Ok tt)
          base N w0 = (Ok w', evs)
        /\ load_prd E w' = Ok prd'
        /\ pending prd' = (pending prd0 - Nat.min N (pending prd0))%nat).
Proof.
  assert (Hafter : forall w prd, load_prd E w = Ok prd ->
                   (let? _ := load_prd E w in Ok tt) = Ok tt)
    by (intros w prd Hl; rewrite Hl; reflexivity).
  split; [|split].
  - unfold run_command.
    assert (Hp : exists bp, load_prompt E w0 = Ok bp).
    { unfold load_prompt. destruct (custom_prompt E); [apply Hprompt|eexists; reflexivity]. }
    destruct Hp as [bp Hp]. rewrite Hp, Hprd0.
    destruct (run_loop_marking E (DEFAULT_PROGRESS_TEMPLATE E)
                (fun w2 => let? _ := load_prd E w2 in Ok tt) bp Hprog Hwrite Hkeep Hafter
                Hagent N w0 prd0 Hprd0) as (w' & evs & prd' & Heq & Hc & Hl' & _).
    rewrite Heq, Hl'. exists evs. split; [reflexivity|exact Hc].
  - unfold run_command_main.
    destruct (Hprompt w0) as [bp Hp]. rewrite Hp.
    destruct (run_loop_marking E EmptyString (fun _ => Ok tt) bp Hprog Hwrite Hkeep
                (fun _ _ _ => eq_refl) Hagent N w0 prd0 Hprd0)
      as (w' & evs & prd' & Heq & Hc & _ & _).
    rewrite Heq. exists evs. split; [reflexivity|exact Hc].
  - intros base.
    destruct (run_loop_marking E (DEFAULT_PROGRESS_TEMPLATE E)
                (fun w2 => let? _ := load_prd E w2 in Ok tt) base Hprog Hwrite Hkeep Hafter
                Hagent N w0 prd0 Hprd0) as (w' & evs & prd' & Heq & _ & Hl' & Hpend).
    exists w', evs, prd'. auto.
Qed.

Lemma run_command_completes_pending_witness :
  (exists evs, run_command marking_env 3%nat 0%nat = (Ok tt, evs)
               /\ invocations evs = Nat.min 3%nat (pending (two_doc 0)))
  /\ (exists evs, run_command_main marking_env 3%nat 0%nat = (Ok tt, evs)
                  /\ invocations evs = Nat.min 3%nat (pending (two_doc 0)))
  /\ (forall base, exists w' evs prd',
        run_loop marking_env (DEFAULT_PROGRESS_TEMPLATE marking_env)
          (fun w2 => let? _ := load_prd marking_env w2 in Ok tt) base 3%nat 0%nat = (Ok w', evs)
        /\ load_prd marking_env w' = Ok prd'
        /\ pending prd' = (pending (two_doc 0) - Nat.min 3%nat (pending (two_doc 0)))%nat).
Proof.
  apply (run_command_completes_pending marking_env 3%nat 0%nat (two_doc 0)).
  - intros w. eexists. reflexivity.
  - vm_compute. reflexivity.
  - intros w e H. discriminate H.
  - intros w c. eexists. reflexivity.
  - intros w c w' H. injection H as <-. reflexivity.
  - intros w prompt prd s Hl Hs.
    destruct w as [|[|w]]; vm_compute in Hl; injection Hl as <-; vm_compute in Hs.
    + injection Hs as <-. exists [], [st "S-2" 2 false].
      split; vm_compute; reflexivity.
    + injection Hs as <-. exists [st "S-1" 1 true], [].
      split; vm_compute; reflexivity.
    + discriminate Hs.
Defined.

End LoopInvariants.

(** ** The extractor, further *)
Module ExtractorMore.
Import Samples.
Import Prompts Journal Aux.
Local Open Scope list_scope.

Lemma find_split (c : ascii) (s : string) (i : nat) :
  find c s = Some i ->
  exists a rest, s = (a ++ String c rest)%string /\ find c a = None /\ String.length a = i.
Proof.
  revert i. induction s as [|d s IH]; intros i H; simpl in H; [discriminate|].
  destruct (Ascii.eqb c d) eqn:Ec.
  - apply Ascii.eqb_eq in Ec. subst d. injection H as <-.
    exists EmptyString, s. auto.
  - destruct (find c s) as [k|] eqn:Hk; [|discriminate]. injection H as <-.
    destruct (IH k eq_refl) as (a & rest & -> & Ha & Hl).
    exists (String d a), rest. simpl. rewrite Ec, Ha, Hl. auto.
Qed.

Lemma rfind_split (c : ascii) (s : string) (j : nat) :
  rfind c s = Some j ->
  exists b z, s = (b ++ String c z)%string /\ rfind c z = None /\ String.length b = j.
Proof.
  revert j. induction s as [|d s IH]; intros j H; simpl in H; [discriminate|].
  destruct (rfind c s) as [k|] eqn:Hk.
  - injection H as <-. destruct (IH k eq_refl) as (b & z & -> & Hz & Hl).
    exists (String d b), z. simpl. rewrite Hl. auto.
  - destruct (Ascii.eqb c d) eqn:Ec; [|discriminate].
    apply Ascii.eqb_eq in Ec. subst d. injection H as <-. exists EmptyString, s. auto.
Qed.

Lemma app_prefix_le (a b x y : string) :
  (a ++ x)%string = (b ++ y)%string -> (String.length a <= String.length b)%nat ->
  exists m, b = (a ++ m)%string /\ x = (m ++ y)%string.
Proof.
  revert b. induction a as [|d a IH]; intros b H Hl.
  - exists b. auto.
  - destruct b as [|e b]; simpl in Hl; [lia|].
    simpl in H. injection H as <- H.
    destruct (IH b H ltac:(lia)) as (m & -> & ->). exists m. auto.
Qed.

Lemma trim_end_snoc (s : string) (ch : ascii) :
  is_whitespace ch = false -> trim_end (s ++ String ch EmptyString) = (s ++ String ch EmptyString)%string.
Proof.
  intros Hw. induction s as [|d s IH].
  - simpl. rewrite Hw. reflexivity.
  - cbn [append trim_end]. rewrite IH. destruct s; reflexivity.
Qed.

Lemma substring_zero (n : nat) (s : string) : substring n 0 s = EmptyString.
Proof.
  revert s. induction n as [|n IH]; intros [|d s]; simpl; auto.
Qed.

(** The shape of a successful non-empty extraction: the text after the fence
    step splits around its first [{] and its last [}], the first coming
    before the last. *)
Lemma clean_ok_shape (response c : string) :
  clean_json_response response = Returns (Ok c) -> c <> EmptyString ->
  exists a m z,
    without_fences (trim response) = (a ++ String OPEN (m ++ String CLOSE z))%string
    /\ find OPEN a = None /\ rfind CLOSE z = None
    /\ c = String OPEN (m ++ String CLOSE EmptyString).
Proof.
  unfold clean_json_response. set (t := without_fences (trim response)).
  intros H Hne.
  destruct (find OPEN t) as [i|] eqn:Hi; [|discriminate].
  destruct (rfind CLOSE t) as [j|] eqn:Hj; [|discriminate].
  destruct (find_split OPEN t i Hi) as (a & rest & Ht1 & Ha & Hla).
  destruct (rfind_split CLOSE t j Hj) as (b & z & Ht2 & Hz & Hlb).
  unfold slice_inclusive in H.
  destruct (i <=? S j)%nat eqn:Hij; [|discriminate].
  apply Nat.leb_le in Hij. injection H as Hc.
  destruct (Nat.eq_dec i (S j)) as [Heq|Hneq].
  { exfalso. apply Hne. rewrite <- Hc, Heq, Nat.sub_diag. apply substring_zero. }
  assert (Hle : (String.length a <= String.length b)%nat) by lia.
  destruct (app_prefix_le a b (String OPEN rest) (String CLOSE z) ltac:(congruence) Hle)
    as (m & Hb & Hrest).
  destruct m as [|d m].
  { simpl in Hrest. injection Hrest as Hoc. discriminate Hoc. }
  simpl in Hrest. injection Hrest as <- Hrest.
  exists a, m, z. split; [|split; [exact Ha|split; [exact Hz|]]].
  - rewrite Ht1, Hrest. reflexivity.
  - rewrite <- Hc. rewrite Ht1, Hrest, <- Hla.
    assert (Hj' : j = (String.length a + S (String.length m))%nat).
    { rewrite <- Hlb, Hb, ExtractorFacts.length_app. reflexivity. }
    rewrite Hj'. pose proof (ExtractorFacts.slice_braces a m z) as Hs. simpl in Hs.
    unfold slice_inclusive in Hs.
    replace ((String.length a <=? S (String.length a + S (String.length m)))%nat) with true
      in Hs by (symmetry; apply Nat.leb_le; lia).
    injection Hs as Hs. exact Hs.
Qed.

Lemma clean_braced (m : string) :
  clean_json_response (String OPEN (m ++ String CLOSE EmptyString))
  = Returns (Ok (String OPEN (m ++ String CLOSE EmptyString))).
Proof.
  unfold clean_json_response.
  assert (Ht : trim (String OPEN (m ++ String CLOSE EmptyString))
               = String OPEN (m ++ String CLOSE EmptyString)).
  { unfold trim. cbn [trim_start]. replace (is_whitespace OPEN) with false by reflexivity.
    exact (trim_end_snoc (String OPEN m) CLOSE eq_refl). }
  rewrite Ht.
  assert (Hw : without_fences (String OPEN (m ++ String CLOSE EmptyString))
               = String OPEN (m ++ String CLOSE EmptyString)) by reflexivity.
  rewrite Hw.
  destruct (ExtractorFacts.boundaries EmptyString m EmptyString eq_refl eq_refl) as [E1 E2].
  cbn [append String.length] in E1, E2. rewrite E1, E2.
  exact (ExtractorFacts.slice_braces EmptyString m EmptyString).
Qed.

(** X11: a non-empty result of [clean_json_response] starts with [{] and
    ends with [}], and cleaning it again returns it unchanged. *)
Theorem clean_json_response_idempotent (response c : string) :
  clean_json_response response = Returns (Ok c) -> c <> EmptyString ->
  (exists m, c = String OPEN (m ++ String CLOSE EmptyString))
  /\ clean_json_response c = Returns (Ok c).
Proof.
  intros H Hne. destruct (clean_ok_shape response c H Hne) as (a & m & z & _ & _ & _ & ->).
  split; [exists m; reflexivity|apply clean_braced].
Qed.

Lemma clean_json_response_idempotent_witness :
  ((exists m, a_one = String OPEN (m ++ String CLOSE EmptyString))
   /\ clean_json_response a_one = Returns (Ok a_one))
  /\ ((exists m, a_one = String OPEN (m ++ String CLOSE EmptyString))
      /\ clean_json_response a_one = Returns (Ok a_one)).
Proof.
  split.
  - apply (clean_json_response_idempotent noise_input a_one);
      [vm_compute; reflexivity|discriminate].
  - apply (clean_json_response_idempotent fenced_input a_one);
      [vm_compute; reflexivity|discriminate].
Defined.

Lemma prefix_app (s t : string) : String.prefix s (s ++ t) = true.
Proof.
  induction s as [|d s IH]; simpl; [destruct t; reflexivity|].
  destruct (ascii_dec d d) as [_|n]; [exact IH|contradiction].
Qed.

Lemma lines_first (cur : list ascii) (a r : string) :
  find LF a = None -> exists l, lines_from cur (a ++ String LF r) = l :: lines_from [] r.
Proof.
  revert cur. induction a as [|d a IH]; intros cur H.
  - simpl. eexists. reflexivity.
  - cbn [find] in H. destruct (Ascii.eqb LF d) eqn:E; [discriminate|].
    destruct (find LF a) eqn:Ha; [discriminate|].
    cbn [append lines_from]. rewrite Ascii.eqb_sym, E. apply IH. reflexivity.
Qed.

Lemma lines_body (cur : list ascii) (body : string) :
  ~ In CR cur -> find CR body = None ->
  lines_from cur (body ++ String LF fence) = split_lf_from cur body ++ [fence].
Proof.
  assert (Hcur : forall cur : list ascii, ~ In CR cur ->
            match cur with
            | c' :: t => if Ascii.eqb c' CR then t else cur
            | [] => []
            end = cur).
  { intros [|c' t] Hn; [reflexivity|].
    destruct (Ascii.eqb c' CR) eqn:E; [|reflexivity].
    apply Ascii.eqb_eq in E. subst. exfalso. apply Hn. left. reflexivity. }
  revert cur. induction body as [|d body IH]; intros cur Hn Hb.
  - cbn [append lines_from]. rewrite Hcur by exact Hn. reflexivity.
  - cbn [find] in Hb. destruct (Ascii.eqb CR d) eqn:E; [discriminate|].
    destruct (find CR body) eqn:Hb'; [discriminate|].
    cbn [append lines_from split_lf_from].
    destruct (Ascii.eqb d LF).
    + rewrite Hcur by exact Hn. rewrite IH by (auto; intros []). reflexivity.
    + apply IH; [|reflexivity]. intros [Hd|Hi]; [|exact (Hn Hi)].
      subst d. rewrite Ascii.eqb_refl in E. discriminate.
Qed.

Lemma split_lf_nonempty (cur : list ascii) (s : string) : split_lf_from cur s <> [].
Proof.
  revert cur. induction s as [|d s IH]; intros cur; cbn [split_lf_from]; [discriminate|].
  destruct (Ascii.eqb d LF); [discriminate|apply IH].
Qed.

Lemma sol_snoc (l : list ascii) (c : ascii) :
  string_of_list_ascii (l ++ [c]) = (string_of_list_ascii l ++ String c EmptyString)%string.
Proof. induction l as [|d l IH]; simpl; [reflexivity|now rewrite IH]. Qed.

Lemma concat_split_lf (cur : list ascii) (s : string) :
  String.concat NL (split_lf_from cur s) = (string_of_list_ascii (rev cur) ++ s)%string.
Proof.
  revert cur. induction s as [|d s IH]; intros cur.
  - simpl. now rewrite DriverFacts.str_app_nil_r.
  - cbn [split_lf_from]. destruct (Ascii.eqb d LF) eqn:E.
    + apply Ascii.eqb_eq in E. subst d.
      pose proof (split_lf_nonempty [] s) as Hne.
      destruct (split_lf_from [] s) as [|x xs] eqn:Hs; [contradiction|].
      change (String.concat NL (string_of_list_ascii (rev cur) :: x :: xs))
        with (string_of_list_ascii (rev cur) ++ NL ++ String.concat NL (x :: xs))%string.
      rewrite <- Hs, IH. reflexivity.
    + rewrite IH. cbn [rev]. rewrite sol_snoc, ExtractorFacts.string_app_assoc. reflexivity.
Qed.

(** X12: for a response that is exactly a fenced block (an opening fence
    with a tag on its line, the body, a closing fence, LF line endings),
    the fence step gives back the body unchanged, and the braces are
    searched in the body alone, whatever the tag. *)
Theorem clean_json_response_fenced (tag body : string) :
  find LF tag = None -> find CR body = None ->
  clean_json_response (fence ++ tag ++ NL ++ body ++ NL ++ fence) = extract_braces body.
Proof.
  intros Htag Hbody.
  set (r := (fence ++ tag ++ NL ++ body ++ NL ++ fence)%string).
  assert (Htrim : trim r = r).
  { assert (Er : r = ((String "`" (String "`" (String "`" (tag ++ NL ++ body ++ NL ++ "``"))))
                      ++ String "`" EmptyString)%string).
    { unfold r, fence. cbn [append]. f_equal. f_equal. f_equal.
      rewrite !ExtractorFacts.string_app_assoc. reflexivity. }
    unfold trim. replace (trim_start r) with r by (unfold r, fence; reflexivity).
    rewrite Er. apply trim_end_snoc. reflexivity. }
  assert (Hwf : without_fences r = body).
  { unfold without_fences.
    replace (String.prefix fence r) with true by (unfold r; symmetry; apply prefix_app).
    assert (Hl : exists l, lines r = l :: (split_lf_from [] body ++ [fence])).
    { unfold lines, r.
      replace (fence ++ tag ++ NL ++ body ++ NL ++ fence)%string
        with ((fence ++ tag) ++ String LF (body ++ String LF fence))%string
        by (rewrite ExtractorFacts.string_app_assoc; reflexivity).
      destruct (lines_first [] (fence ++ tag) (body ++ String LF fence)) as [l Hl].
      - rewrite (ExtractorFacts.find_app_none LF fence tag eq_refl), Htag. reflexivity.
      - exists l. rewrite Hl. f_equal. apply lines_body; [intros []|exact Hbody]. }
    destruct Hl as [l Hl]. rewrite Hl.
    cbn [tl]. rewrite removelast_last.
    assert (Hlen : (2 <? length (l :: split_lf_from [] body ++ [fence]))%nat = true).
    { pose proof (split_lf_nonempty [] body) as Hne. apply Nat.ltb_lt.
      cbn [length]. rewrite length_app. cbn [length].
      destruct (split_lf_from [] body); [contradiction|cbn [length]; lia]. }
    rewrite Hlen, concat_split_lf. reflexivity. }
  unfold clean_json_response. rewrite Htrim, Hwf. reflexivity.
Qed.

Lemma clean_json_response_fenced_witness :
  clean_json_response (fence ++ "json" ++ NL ++ a_one ++ NL ++ fence) = extract_braces a_one.
Proof. apply clean_json_response_fenced; vm_compute; reflexivity. Defined.

End ExtractorMore.

(** ** Validation and field decoding, further *)
Module ValidationMore.
Import Types Serde Samples Aux.
Local Open Scope list_scope.

Lemma count_id_cons (i : string) (s : Story) (ss : list Story) :
  count_id i (s :: ss) = ((if String.eqb (id s) i then 1 else 0) + count_id i ss)%nat.
Proof. unfold count_id. simpl. destruct (String.eqb (id s) i); reflexivity. Qed.

Lemma validate_stories_dup (seen : list string) (ss : list Story) (i : string) :
  validate_stories seen ss = Err ("Duplicate story ID: " ++ i) ->
  (In i seen /\ (1 <= count_id i ss)%nat) \/ (2 <= count_id i ss)%nat.
Proof.
  revert seen. induction ss as [|s ss IH]; intros seen H; cbn [validate_stories] in H;
    [discriminate|].
  destruct (is_empty (id s)); [discriminate|].
  destruct (is_empty (title s)); [discriminate|].
  destruct (is_empty (description s)); [discriminate|].
  destruct (negb (0 <? priority s)); [discriminate|].
  destruct (acceptance_criteria s); [discriminate|].
  unfold hs_insert in H. rewrite count_id_cons.
  destruct (existsb (String.eqb (id s)) seen) eqn:He; cbn [negb] in H.
  - injection H as H. subst i.
    apply ValidationFacts.existsb_eqb_in in He. rewrite String.eqb_refl. left. split; [exact He|lia].
  - destruct (IH _ H) as [[[Hi|Hi] Hc]|Hc].
    + subst i. rewrite String.eqb_refl. right. lia.
    + left. split; [exact Hi|lia].
    + right. lia.
Qed.

(** X13: when [validate_prd] reports a duplicate id, that id is carried by
    at least two stories of the document. *)
Theorem validate_prd_duplicate_real (prd : Prd) (i : string) :
  validate_prd prd = Err ("Duplicate story ID: " ++ i) -> (2 <= count_id i (stories prd))%nat.
Proof.
  unfold validate_prd. destruct (is_empty (branch_name prd)); [discriminate|].
  destruct (stories prd) as [|s ss]; [discriminate|].
  intros H. destruct (validate_stories_dup [] (s :: ss) i H) as [[[] _]|Hc]. exact Hc.
Qed.

Lemma validate_prd_duplicate_real_witness :
  validate_prd dup_doc = Err ("Duplicate story ID: " ++ "S-1")
  /\ (2 <= count_id "S-1" (stories dup_doc))%nat.
Proof.
  assert (H : validate_prd dup_doc = Err ("Duplicate story ID: " ++ "S-1")) by (vm_compute; reflexivity).
  split; [exact H|exact (validate_prd_duplicate_real dup_doc "S-1" H)].
Defined.

Lemma count_key_cons (k k' : string) (v : json) (fs : list (string * json)) :
  count_key k ((k', v) :: fs) = ((if String.eqb k' k then 1 else 0) + count_key k fs)%nat.
Proof. unfold count_key. simpl. destruct (String.eqb k' k); reflexivity. Qed.

(** A slot filled by a key's entry leaves the other slots as they were. *)
Ltac slot_mono :=
  intros k Hk; unfold story_slot_set in *;
  cbn [s_id s_title s_description s_priority s_passes s_criteria] in *;
  repeat match goal with |- context [String.eqb k ?s] => destruct (String.eqb k s) end;
  first [reflexivity | exact Hk].

Ltac slot_case E H o de :=
  apply String.eqb_eq in E; subst;
  destruct o; [discriminate|];
  destruct de; [|discriminate];
  injection H as <-;
  split; [intros _; split; reflexivity|slot_mono].

(** Storing a key's value fills the key's slot and keeps filled slots. *)
Lemma story_entry_slots (sl sl' : StorySlots) (k' : string) (v : json) :
  story_entry sl k' v = Ok sl' ->
  (In k' story_keys -> story_slot_set k' sl = false /\ story_slot_set k' sl' = true)
  /\ (forall k, story_slot_set k sl = true -> story_slot_set k sl' = true).
Proof.
  destruct sl as [i t d p pa c]. unfold story_entry, set_slot. intros H.
  destruct (String.eqb k' "id") eqn:E1; [slot_case E1 H i (de_string v)|].
  destruct (String.eqb k' "title") eqn:E2; [slot_case E2 H t (de_string v)|].
  destruct (String.eqb k' "description") eqn:E3; [slot_case E3 H d (de_string v)|].
  destruct (String.eqb k' "priority") eqn:E4; [slot_case E4 H p (de_i32 v)|].
  destruct (String.eqb k' "passes") eqn:E5; [slot_case E5 H pa (de_bool v)|].
  destruct (String.eqb k' "acceptance_criteria") eqn:E6;
    [slot_case E6 H c (de_seq de_string v)|].
  injection H as <-. split; [|intros k Hk; exact Hk].
  intros Hk. exfalso.
  repeat destruct Hk as [<-|Hk]; try contradiction;
    match goal with E : String.eqb ?a ?a = false |- _ => rewrite String.eqb_refl in E end;
    discriminate.
Qed.

Lemma story_entries_dup (k : string) (sl : StorySlots) (fs : list (string * json)) :
  In k story_keys ->
  (story_slot_set k sl = true /\ (1 <= count_key k fs)%nat) \/ (2 <= count_key k fs)%nat ->
  is_ok (story_entries sl fs) = false.
Proof.
  intros Hk. revert sl. induction fs as [|[k' v] fs IH]; intros sl Hc.
  - unfold count_key in Hc. simpl in Hc. lia.
  - rewrite count_key_cons in Hc. cbn [story_entries].
    destruct (story_entry sl k' v) as [sl'|e] eqn:He; [|reflexivity].
    destruct (story_entry_slots sl sl' k' v He) as [Hnew Hkeep].
    apply IH. destruct (String.eqb k' k) eqn:E.
    + apply String.eqb_eq in E. subst k'. destruct (Hnew Hk) as [Hf Ht].
      rewrite Hf in Hc. destruct Hc as [[Hc _]|Hc]; [discriminate|].
      left. split; [exact Ht|lia].
    + destruct Hc as [[Hs Hc]|Hc]; [left; split; [exact (Hkeep k Hs)|lia]|right; lia].
Qed.

Lemma prd_entries_dup (k : string) (b : option string) (ss : option (list Story))
    (fs : list (string * json)) :
  In k prd_keys ->
  (prd_slot_set k b ss = true /\ (1 <= count_key k fs)%nat) \/ (2 <= count_key k fs)%nat ->
  is_ok (prd_entries b ss fs) = false.
Proof.
  intros Hk. revert b ss. induction fs as [|[k' v] fs IH]; intros b ss Hc.
  - unfold count_key in Hc. simpl in Hc. lia.
  - rewrite count_key_cons in Hc. cbn [prd_entries]. unfold set_slot.
    destruct (String.eqb k' "branchName") eqn:E1.
    + apply String.eqb_eq in E1. subst k'.
      destruct b as [x|]; [reflexivity|]. destruct (de_string v) as [x|e]; [|reflexivity].
      apply IH. destruct Hk as [<-|[<-|[]]]; unfold prd_slot_set in *; cbn in Hc |- *;
        destruct Hc as [[H1 H2]|H2];
        first [discriminate | right; lia | left; split; [first [assumption|reflexivity]|lia]].
    + destruct (String.eqb k' "stories") eqn:E2.
      * apply String.eqb_eq in E2. subst k'.
        destruct ss as [x|]; [reflexivity|]. destruct (de_seq de_story v) as [x|e]; [|reflexivity].
        apply IH. destruct Hk as [<-|[<-|[]]]; unfold prd_slot_set in *; cbn in Hc |- *;
          destruct Hc as [[H1 H2]|H2];
          first [discriminate | right; lia | left; split; [first [assumption|reflexivity]|lia]].
      * apply IH. assert (Hne : String.eqb k' k = false).
        { destruct Hk as [<-|[<-|[]]]; assumption. }
        rewrite Hne in Hc. exact Hc.
Qed.

(** X14: a JSON map given for a [Story] that carries one of the fields
    [id], [title], [description], [priority], [passes] or
    [acceptance_criteria] twice is rejected: the derived [visit_map] never
    lets a later entry overwrite an earlier one. *)
Theorem de_story_duplicate_field (fs : list (string * json)) (k : string) :
  In k story_keys -> (2 <= count_key k fs)%nat -> is_ok (de_story (JObject fs)) = false.
Proof.
  intros Hk Hc. cbn [de_story]. unfold story_of_fields.
  pose proof (story_entries_dup k empty_slots fs Hk (or_intror Hc)) as H.
  destruct (story_entries empty_slots fs); [discriminate|reflexivity].
Qed.

Lemma de_story_duplicate_field_witness :
  is_ok (de_story (JObject (("id", JString "S-2")
                           :: match ser_story (st "S-1" 1 false) with
                              | JObject fs => fs | _ => [] end))) = false.
Proof.
  apply (de_story_duplicate_field _ "id"); [left; reflexivity|].
  apply Nat.leb_le. vm_compute. reflexivity.
Defined.

(** X15: a JSON map given for a [Prd] that carries [branchName] or
    [stories] twice is rejected, whatever the values. *)
Theorem de_prd_duplicate_field (fs : list (string * json)) (k : string) :
  In k prd_keys -> (2 <= count_key k fs)%nat -> is_ok (de_prd (JObject fs)) = false.
Proof.
  intros Hk Hc. cbn [de_prd]. unfold prd_of_fields.
  pose proof (prd_entries_dup k None None fs Hk (or_intror Hc)) as H.
  destruct (prd_entries None None fs) as [[[b|] [ss|]]|e]; try discriminate; reflexivity.
Qed.

Lemma de_prd_duplicate_field_witness :
  is_ok (de_prd (JObject (("branchName", JString "other")
                          :: match ser_prd sample_prd with
                             | JObject fs => fs | _ => [] end))) = false.
Proof.
  apply (de_prd_duplicate_field _ "branchName"); [left; reflexivity|].
  apply Nat.leb_le. vm_compute. reflexivity.
Defined.

End ValidationMore.

(** ** The journal and the loop's choice of story, further *)
Module JournalMore.
Import Types Amp Journal Workflows Samples Aux.
Local Open Scope list_scope.





End JournalMore.
